(** * Yardstick: the MCP echo server and its client

    A shallow embedding of the Go sources of StacklokLabs/yardstick:
    the echo server (validator, echo handler, auth gate, transport
    selection, configuration) and the command line client.

    Go strings are byte sequences: they are embedded as [string], whose
    characters are the 256 values of [ascii].  Package level variables
    become fields of a record that is passed explicitly; calls into the
    MCP SDK, the HTTP stack and the operating system become events of a
    trace. *)

From Stdlib Require Import ZArith Ascii String Lia.
From stdpp Require Import base strings list gmap pretty.

Local Open Scope nat_scope.

(** ** Go's [any], as far as JSON documents populate it

    A number stands as its literal: which [float64] it rounds to is not
    computed, only whether there is one (see [json.outOfRange]). *)

#[local] Unset Elimination Schemes.
Inductive any : Type :=
  | AnyNil
  | AnyBool (b : bool)
  | AnyNumber (literal : string)
  | AnyString (s : string)
  | AnySlice (elems : list any)
  | AnyMap (fields : gmap string any).
#[local] Set Elimination Schemes.

(** ** Package regexp: the fragment of the syntax used by the server *)

Module regexp.

(** A character class is a list of inclusive ranges, as in
    [syntax.Regexp.Rune].  All ranges used here lie within ASCII, where a
    rune is exactly one byte of the string; a byte above 0x7f belongs to a
    multi-byte rune (or decodes to U+FFFD), which no ASCII range holds. *)
Definition Range : Type := ascii * ascii.

Inductive Regexp : Type :=
  | OpNoMatch
  | OpEmptyMatch
  | OpCharClass (ranges : list Range)
  | OpBeginText
  | OpEndText
  | OpConcat (r1 r2 : Regexp)
  | OpAlternate (r1 r2 : Regexp)
  | OpStar (r : Regexp)
  | OpPlus (r : Regexp)
  | OpQuest (r : Regexp).

Definition inRange (c : ascii) (r : Range) : bool :=
  (nat_of_ascii (fst r) <=? nat_of_ascii c) && (nat_of_ascii c <=? nat_of_ascii (snd r)).

Definition inClass (ranges : list Range) (c : ascii) : bool :=
  existsb (inRange c) ranges.

(** A position in the text: the offset reached and the bytes left. *)
Definition Pos : Type := nat * list ascii.

(** One or more rounds of [step]; a round that consumes nothing is not
    repeated, so [length (snd p)] rounds are enough. *)
Fixpoint iterate (step : Pos -> list Pos) (fuel : nat) (p : Pos) : list Pos :=
  match fuel with
  | O => []
  | S fuel' =>
      flat_map
        (fun q => q :: (if length (snd q) <? length (snd p)
                        then iterate step fuel' q else []))
        (step p)
  end.

(** [run re p] lists every position at which a match of [re] that starts
    at [p] can end. *)
Fixpoint run (re : Regexp) (p : Pos) : list Pos :=
  match re with
  | OpNoMatch => []
  | OpEmptyMatch => [p]
  | OpCharClass ranges =>
      match snd p with
      | c :: rest => if inClass ranges c then [(S (fst p), rest)] else []
      | [] => []
      end
  | OpBeginText => if fst p =? 0 then [p] else []
  | OpEndText => match snd p with [] => [p] | _ :: _ => [] end
  | OpConcat r1 r2 => flat_map (run r2) (run r1 p)
  | OpAlternate r1 r2 => run r1 p ++ run r2 p
  | OpStar r => p :: iterate (run r) (S (length (snd p))) p
  | OpPlus r => iterate (run r) (S (length (snd p))) p
  | OpQuest r => p :: run r p
  end.

Definition matchesAt (re : Regexp) (p : Pos) : bool :=
  match run re p with [] => false | _ :: _ => true end.

(** An unanchored search: the match may start at any offset. *)
Fixpoint search (re : Regexp) (off : nat) (text : list ascii) : bool :=
  matchesAt re (off, text)
  || match text with
     | [] => false
     | _ :: rest => search re (S off) rest
     end.

(** *** Parsing a pattern

    The syntax covered: the anchors [^] and [$], classes of characters
    and ranges between brackets, plain characters, and the postfix
    operators [+], [*] and [?], in sequence. *)

Definition isMeta (c : ascii) : bool :=
  existsb (Ascii.eqb c) (list_ascii_of_string "\.+*?()|[]{}^$").

(** The items of a class after its opening bracket, in the order written. *)
Fixpoint parseClass (l : list ascii) (acc : list Range) : option (list Range * list ascii) :=
  match l with
  | [] => None
  | c :: rest =>
      if Ascii.eqb c "]" then
        match acc with [] => None | _ :: _ => Some (rev acc, rest) end
      else if Ascii.eqb c "\" || Ascii.eqb c "[" || Ascii.eqb c "^" then None
      else
        match rest with
        | "-"%char :: hi :: rest' =>
            if Ascii.eqb hi "]" then parseClass rest ((c, c) :: acc)
            else if nat_of_ascii hi <? nat_of_ascii c then None
            else parseClass rest' ((c, hi) :: acc)
        | _ => parseClass rest ((c, c) :: acc)
        end
  end.

(** Apply the postfix operators that follow an atom. *)
Fixpoint parsePostfix (atom : Regexp) (l : list ascii) : Regexp * list ascii :=
  match l with
  | c :: rest =>
      if Ascii.eqb c "+" then parsePostfix (OpPlus atom) rest
      else if Ascii.eqb c "*" then parsePostfix (OpStar atom) rest
      else if Ascii.eqb c "?" then parsePostfix (OpQuest atom) rest
      else (atom, l)
  | [] => (atom, [])
  end.

Definition concat (acc : option Regexp) (re : Regexp) : Regexp :=
  match acc with
  | Some first => OpConcat first re
  | None => re
  end.

Fixpoint parseSeq (fuel : nat) (l : list ascii) (acc : option Regexp) : option Regexp :=
  match fuel with
  | O => None
  | S fuel =>
      match l with
      | [] => Some (default OpEmptyMatch acc)
      | c :: rest =>
          if Ascii.eqb c "^" then parseSeq fuel rest (Some (concat acc OpBeginText))
          else if Ascii.eqb c "$" then parseSeq fuel rest (Some (concat acc OpEndText))
          else if Ascii.eqb c "[" then
            match parseClass rest [] with
            | Some (ranges, rest) =>
                let '(re, rest) := parsePostfix (OpCharClass ranges) rest in
                parseSeq fuel rest (Some (concat acc re))
            | None => None
            end
          else if isMeta c then None
          else
            let '(re, rest) := parsePostfix (OpCharClass [(c, c)]) rest in
            parseSeq fuel rest (Some (concat acc re))
      end
  end.

Definition Compile (expr : string) : option Regexp :=
  let l := list_ascii_of_string expr in
  parseSeq (S (length l)) l None.

(** [regexp.MustCompile] panics on a pattern that does not parse; the
    pattern of the server does parse. *)
Definition MustCompile (expr : string) : Regexp :=
  default OpNoMatch (Compile expr).

(** [Regexp.MatchString]: does the string contain any match? *)
Definition MatchString (re : Regexp) (s : string) : bool :=
  search re 0 (list_ascii_of_string s).

End regexp.

(** ** Package mcp: the types the handler exchanges with the SDK *)

Module mcp.

(** [mcp.Meta] is [map[string]any]; a nil map is [None]. *)
Definition Meta : Type := option (gmap string any).

Record TextContent : Type := { Text : string }.

Inductive Content : Type :=
  | ContentText (t : TextContent).

Record CallToolResult : Type := {
  ResultMeta : Meta;
  ResultContent : list Content;
  IsError : bool
}.

Record CallToolParamsRaw : Type := {
  ParamsMeta : Meta;
  Name : string;
  Arguments : string
}.

(** [Params] is a pointer: [None] is nil. *)
Record CallToolRequest : Type := { Params : option CallToolParamsRaw }.

(** The metadata a request carries, nil when there are no params. *)
Definition requestMeta (req : CallToolRequest) : Meta :=
  match Params req with
  | Some p => ParamsMeta p
  | None => None
  end.

End mcp.

(** Go's [error], as the message it carries. *)
Definition error : Type := string.

(** ** Package strconv *)

Module strconv.

Definition isDigit (c : ascii) : bool :=
  (48 <=? nat_of_ascii c) && (nat_of_ascii c <=? 57).

Definition digitVal (c : ascii) : Z := Z.of_nat (nat_of_ascii c) - 48.

Fixpoint parseDigits (acc : Z) (l : list ascii) : option Z :=
  match l with
  | [] => Some acc
  | c :: rest => if isDigit c then parseDigits (acc * 10 + digitVal c) rest else None
  end.

(** [int] is 64 bits wide on the platforms the server is built for. *)
Definition minInt : Z := - 2 ^ 63.
Definition maxInt : Z := 2 ^ 63 - 1.

(** [strconv.Atoi]: an optional sign and at least one decimal digit, the
    value within [int]; [None] stands for a non-nil error. *)
Definition Atoi (s : string) : option Z :=
  let l := list_ascii_of_string s in
  let '(neg, ds) :=
    match l with
    | c :: rest =>
        if Ascii.eqb c "-" then (true, rest)
        else if Ascii.eqb c "+" then (false, rest)
        else (false, l)
    | [] => (false, l)
    end in
  match ds with
  | [] => None
  | _ :: _ =>
      match parseDigits 0 ds with
      | Some n =>
          let v := if neg then (- n)%Z else n in
          if ((minInt <=? v) && (v <=? maxInt))%Z then Some v else None
      | None => None
      end
  end.

(** [strconv.Itoa], also what the verb [%d] prints. *)
Definition Itoa (n : Z) : string := pretty n.

End strconv.

(** ** Package os: the environment *)

Module os.

Definition Env : Type := gmap string string.

Definition LookupEnv (env : Env) (key : string) : option string := env !! key.

Definition Getenv (env : Env) (key : string) : string :=
  default EmptyString (env !! key).

Definition hasByte (b : ascii) (s : string) : bool :=
  existsb (Ascii.eqb b) (list_ascii_of_string s).

(** [os.Setenv] refuses an empty key, a key with [=] or NUL and a value
    with NUL; the callers here drop the error. *)
Definition Setenv (env : Env) (key value : string) : Env :=
  if String.eqb key EmptyString || hasByte "="%char key || hasByte "000"%char key
     || hasByte "000"%char value
  then env
  else <[key := value]> env.

End os.

(** ** Package flag *)

Module flag.

(** What [flag.Parse] leaves behind when it returns: for each flag the
    value the command line gave it, if it gave one, and the arguments
    after the flags.  A command line that does not parse ends the process
    inside [flag.Parse]. *)
Record CommandLine : Type := {
  strings : gmap string string;
  ints : gmap string Z;
  durations : gmap string Z;
  positional : list string
}.

Definition StringVar (cl : CommandLine) (name value : string) : string :=
  default value (strings cl !! name).

Definition IntVar (cl : CommandLine) (name : string) (value : Z) : Z :=
  default value (ints cl !! name).

Definition DurationVar (cl : CommandLine) (name : string) (value : Z) : Z :=
  default value (durations cl !! name).

Definition Args (cl : CommandLine) : list string := positional cl.

End flag.

(** ** Package encoding/json: decoding into [any] *)

Module json.

Inductive Error : Type :=
  | SyntaxError
  | UnmarshalTypeError (value : string).

Definition isSpace (c : ascii) : bool :=
  existsb (Ascii.eqb c) [" "%char; "009"%char; "010"%char; "013"%char].

Fixpoint skipSpace (l : list ascii) : list ascii :=
  match l with
  | c :: rest => if isSpace c then skipSpace rest else l
  | [] => []
  end.

Definition hexVal (c : ascii) : option Z :=
  let n := Z.of_nat (nat_of_ascii c) in
  if ((48 <=? n) && (n <=? 57))%Z then Some (n - 48)%Z
  else if ((97 <=? n) && (n <=? 102))%Z then Some (n - 87)%Z
  else if ((65 <=? n) && (n <=? 70))%Z then Some (n - 55)%Z
  else None.

(** The text after a leading [c], if it leads. *)
Definition eat (c : ascii) (l : list ascii) : option (list ascii) :=
  match l with
  | x :: rest => if Ascii.eqb x c then Some rest else None
  | [] => None
  end.

(** [getu4]: the code unit of a leading [\uXXXX], and what follows it. *)
Definition getu4 (l : list ascii) : option (Z * list ascii) :=
  match l with
  | bs :: u :: a :: b :: c :: d :: rest =>
      if Ascii.eqb bs "\" && Ascii.eqb u "u" then
        match hexVal a, hexVal b, hexVal c, hexVal d with
        | Some a, Some b, Some c, Some d =>
            Some ((a * 4096 + b * 256 + c * 16 + d)%Z, rest)
        | _, _, _, _ => None
        end
      else None
  | _ => None
  end.

Definition byte (n : Z) : ascii := ascii_of_nat (Z.to_nat n).

(** [utf8.EncodeRune] *)
Definition encodeRune (r : Z) : list ascii :=
  if (r <? 128)%Z then [byte r]
  else if (r <? 2048)%Z then [byte (192 + r / 64); byte (128 + r mod 64)]
  else if (r <? 65536)%Z then
    [byte (224 + r / 4096); byte (128 + (r / 64) mod 64); byte (128 + r mod 64)]
  else
    [byte (240 + r / 262144); byte (128 + (r / 4096) mod 64);
     byte (128 + (r / 64) mod 64); byte (128 + r mod 64)].

Definition replacementChar : Z := 65533.

Definition isSurrogate (r : Z) : bool := ((55296 <=? r) && (r <? 57344))%Z.

(** [utf16.DecodeRune] *)
Definition decodeSurrogates (r1 r2 : Z) : Z :=
  if ((55296 <=? r1) && (r1 <? 56320) && (56320 <=? r2) && (r2 <? 57344))%Z
  then ((r1 - 55296) * 1024 + (r2 - 56320) + 65536)%Z
  else replacementChar.

(** The byte a one-letter escape stands for. *)
Definition escaped (e : ascii) : option ascii :=
  if Ascii.eqb e "034" || Ascii.eqb e "\" || Ascii.eqb e "/" then Some e
  else if Ascii.eqb e "b" then Some "008"%char
  else if Ascii.eqb e "f" then Some "012"%char
  else if Ascii.eqb e "n" then Some "010"%char
  else if Ascii.eqb e "r" then Some "013"%char
  else if Ascii.eqb e "t" then Some "009"%char
  else None.

Definition isCont (c : ascii) : bool :=
  (128 <=? nat_of_ascii c) && (nat_of_ascii c <=? 191).

Definition between (lo hi : nat) (c : ascii) : bool :=
  (lo <=? nat_of_ascii c) && (nat_of_ascii c <=? hi).

(** [utf8.DecodeRune] at a byte above 0x7f: the length of the well-formed
    encoding the text starts with, or [None] where the library gives
    [(RuneError, 1)].  The second byte of a three or four byte encoding
    has a narrower range after 0xE0, 0xED, 0xF0 and 0xF4, which shuts out
    overlong forms, surrogates and values past U+10FFFF. *)
Definition runeLen (l : list ascii) : option nat :=
  match l with
  | [] => None
  | b0 :: rest =>
      if between 194 223 b0 then
        match rest with
        | b1 :: _ => if isCont b1 then Some 2 else None
        | _ => None
        end
      else if between 224 239 b0 then
        match rest with
        | b1 :: b2 :: _ =>
            let lo := if nat_of_ascii b0 =? 224 then 160 else 128 in
            let hi := if nat_of_ascii b0 =? 237 then 159 else 191 in
            if between lo hi b1 && isCont b2 then Some 3 else None
        | _ => None
        end
      else if between 240 244 b0 then
        match rest with
        | b1 :: b2 :: b3 :: _ =>
            let lo := if nat_of_ascii b0 =? 240 then 144 else 128 in
            let hi := if nat_of_ascii b0 =? 244 then 143 else 191 in
            if between lo hi b1 && isCont b2 && isCont b3 then Some 4 else None
        | _ => None
        end
      else None
  end.

(** The body of a string literal, after its opening quote: the decoded
    bytes and the text after the closing quote.  A byte above 0x7f that
    does not start a well-formed UTF-8 encoding becomes U+FFFD. *)
Fixpoint unquote (fuel : nat) (l : list ascii) (acc : list ascii)
  : option (string * list ascii) :=
  match fuel with
  | O => None
  | S fuel =>
      match l with
      | [] => None
      | c :: rest =>
          if Ascii.eqb c "034" then Some (string_of_list_ascii (rev acc), rest)
          else if Ascii.eqb c "\" then
            match rest with
            | [] => None
            | e :: rest' =>
                if Ascii.eqb e "u" then
                  match getu4 l with
                  | None => None
                  | Some (rr, rest) =>
                      if isSurrogate rr then
                        match getu4 rest with
                        | Some (rr1, rest1) =>
                            let dec := decodeSurrogates rr rr1 in
                            if (dec =? replacementChar)%Z
                            then unquote fuel rest (rev (encodeRune replacementChar) ++ acc)
                            else unquote fuel rest1 (rev (encodeRune dec) ++ acc)
                        | None => unquote fuel rest (rev (encodeRune replacementChar) ++ acc)
                        end
                      else unquote fuel rest (rev (encodeRune rr) ++ acc)
                  end
                else
                  match escaped e with
                  | Some b => unquote fuel rest' (b :: acc)
                  | None => None
                  end
            end
          else if nat_of_ascii c <? 32 then None
          else if nat_of_ascii c <? 128 then unquote fuel rest (c :: acc)
          else
            match runeLen l with
            | Some size => unquote fuel (skipn size l) (rev (firstn size l) ++ acc)
            | None => unquote fuel rest (rev (encodeRune replacementChar) ++ acc)
            end
      end
  end.

Fixpoint spanDigits (l : list ascii) : list ascii * list ascii :=
  match l with
  | c :: rest =>
      if strconv.isDigit c
      then let '(ds, tl) := spanDigits rest in (c :: ds, tl)
      else ([], l)
  | [] => ([], [])
  end.

(** At least one digit, for a fraction or an exponent. *)
Definition someDigits (l : list ascii) : option (list ascii * list ascii) :=
  match spanDigits l with
  | ([], _) => None
  | (ds, tl) => Some (ds, tl)
  end.

(** The integer part: a lone zero, or digits that do not start with one. *)
Definition intDigits (l : list ascii) : option (list ascii * list ascii) :=
  match spanDigits l with
  | ([], _) => None
  | (d :: more, tl) =>
      if Ascii.eqb d "0" && negb (match more with [] => true | _ :: _ => false end)
      then None
      else Some (d :: more, tl)
  end.

Definition fraction (l : list ascii) : option (list ascii * list ascii) :=
  match eat "." l with
  | Some rest =>
      match someDigits rest with
      | Some (ds, tl) => Some ("."%char :: ds, tl)
      | None => None
      end
  | None => Some ([], l)
  end.

Definition exponent (l : list ascii) : option (list ascii * list ascii) :=
  match l with
  | e :: rest =>
      if Ascii.eqb e "e" || Ascii.eqb e "E" then
        let '(sg, rest) :=
          match eat "+" rest, eat "-" rest with
          | Some r, _ => (["+"%char], r)
          | None, Some r => (["-"%char], r)
          | None, None => ([], rest)
          end in
        match someDigits rest with
        | Some (ds, tl) => Some (e :: sg ++ ds, tl)
        | None => None
        end
      else Some ([], l)
  | [] => Some ([], l)
  end.

(** The exponent as [strconv] reads it: it stops adding digits at 10000. *)
Definition expValue (ds : list ascii) : Z :=
  foldl (fun e c => if (e <? 10000)%Z then (e * 10 + strconv.digitVal c)%Z else e) 0%Z ds.

Definition digitsValue (ds : list ascii) : Z :=
  foldl (fun n c => (n * 10 + strconv.digitVal c)%Z) 0%Z ds.

Fixpoint dropZeros (l : list ascii) : list ascii :=
  match l with
  | c :: rest => if Ascii.eqb c "0" then dropZeros rest else l
  | [] => []
  end.

(** Half way between the largest [float64] and two to the 1024: a value
    from here on rounds out of range. *)
Definition overflowThreshold : Z := ((2 ^ 54 - 1) * 2 ^ 970)%Z.

(** Whether [strconv.ParseFloat(s, 64)] reports a range error, for a
    literal with integer digits [int], fraction digits [frac] and the
    exponent [e]: the value, [int.frac] times ten to the [e], is compared
    exactly with the threshold.  As in [strconv], 0.d1d2... times ten to
    the [dp] with [dp] above 310 is out of range without a look at the
    digits.  ([strconv] keeps 800 digits of a literal; up to that length
    this agrees with it.) *)
Definition outOfRange (int frac : list ascii) (e : Z) : bool :=
  let ds := dropZeros (int ++ frac) in
  let dp := (Z.of_nat (length ds) - Z.of_nat (length frac) + e)%Z in
  match ds with
  | [] => false
  | _ :: _ =>
      if (310 <? dp)%Z then true
      else if (dp <? 0)%Z then false
      else
        let scale := (e - Z.of_nat (length frac))%Z in
        if (0 <=? scale)%Z
        then (overflowThreshold <=? digitsValue ds * 10 ^ scale)%Z
        else (overflowThreshold * 10 ^ (- scale) <=? digitsValue ds)%Z
  end.

(** The exponent of a literal from its text, the letter included. *)
Definition exponentOf (exp : list ascii) : Z :=
  match exp with
  | [] => 0%Z
  | _ :: rest =>
      match eat "-" rest, eat "+" rest with
      | Some ds, _ => (- expValue ds)%Z
      | None, Some ds => expValue ds
      | None, None => expValue rest
      end
  end.

(** A number literal: its text, whether it is out of the range of a
    [float64], and what follows. *)
Definition scanNumber (l : list ascii) : option (string * bool * list ascii) :=
  let '(sign, l) :=
    match eat "-" l with
    | Some rest => (["-"%char], rest)
    | None => ([], l)
    end in
  match intDigits l with
  | None => None
  | Some (int, l) =>
      match fraction l with
      | None => None
      | Some (frac, l) =>
          match exponent l with
          | None => None
          | Some (exp, l) =>
              Some (string_of_list_ascii (sign ++ int ++ frac ++ exp),
                    outOfRange int (tail frac) (exponentOf exp), l)
          end
      end
  end.

Definition maxNestingDepth : Z := 10000.

Fixpoint stripPrefix (pre l : list ascii) : option (list ascii) :=
  match pre, l with
  | [], _ => Some l
  | p :: pre, c :: l => if Ascii.eqb p c then stripPrefix pre l else None
  | _ :: _, [] => None
  end.

(** A literal name: the value it stands for, if the text goes on with it. *)
Definition literal (name : string) (v : any) (bad : option string) (l : list ascii)
  : option (any * option string * list ascii) :=
  match stripPrefix (list_ascii_of_string name) l with
  | Some rest => Some (v, bad, rest)
  | None => None
  end.

(** The first number out of range so far, which is the one the decoder
    reports. *)
Definition note (bad : option string) (over : bool) (lit : string) : option string :=
  match bad with
  | Some _ => bad
  | None => if over then Some lit else None
  end.

(** One JSON value, with leading white space, nested at [depth]: the
    value, the first number out of range up to its end, and the text that
    follows. *)
Fixpoint value (fuel : nat) (depth : Z) (bad : option string) (l : list ascii) {struct fuel}
  : option (any * option string * list ascii) :=
  match fuel with
  | O => None
  | S fuel =>
      match skipSpace l with
      | [] => None
      | c :: rest =>
          if Ascii.eqb c "{" then
            if (maxNestingDepth <? depth + 1)%Z then None
            else
              match eat "}" (skipSpace rest) with
              | Some rest => Some (AnyMap ∅, bad, rest)
              | None =>
                  match members fuel (depth + 1) bad rest ∅ with
                  | Some (fields, bad, rest) => Some (AnyMap fields, bad, rest)
                  | None => None
                  end
              end
          else if Ascii.eqb c "[" then
            if (maxNestingDepth <? depth + 1)%Z then None
            else
              match eat "]" (skipSpace rest) with
              | Some rest => Some (AnySlice [], bad, rest)
              | None =>
                  match elements fuel (depth + 1) bad rest [] with
                  | Some (elems, bad, rest) => Some (AnySlice elems, bad, rest)
                  | None => None
                  end
              end
          else if Ascii.eqb c "034" then
            match unquote (S (length rest)) rest [] with
            | Some (s, rest) => Some (AnyString s, bad, rest)
            | None => None
            end
          else if Ascii.eqb c "t" then literal "rue" (AnyBool true) bad rest
          else if Ascii.eqb c "f" then literal "alse" (AnyBool false) bad rest
          else if Ascii.eqb c "n" then literal "ull" AnyNil bad rest
          else
            match scanNumber (c :: rest) with
            | Some (lit, over, rest) => Some (AnyNumber lit, note bad over lit, rest)
            | None => None
            end
      end
  end

(** The members of an object after its brace, up to the closing brace; a
    member replaces an earlier one of the same name. *)
with members (fuel : nat) (depth : Z) (bad : option string) (l : list ascii)
    (acc : gmap string any) {struct fuel}
    : option (gmap string any * option string * list ascii) :=
  match fuel with
  | O => None
  | S fuel =>
      match eat "034" (skipSpace l) with
      | None => None
      | Some rest =>
          match unquote (S (length rest)) rest [] with
          | None => None
          | Some (key, rest) =>
              match eat ":" (skipSpace rest) with
              | None => None
              | Some rest =>
                  match value fuel depth bad rest with
                  | None => None
                  | Some (v, bad, rest) =>
                      match eat "," (skipSpace rest), eat "}" (skipSpace rest) with
                      | Some rest, _ => members fuel depth bad rest (<[key := v]> acc)
                      | None, Some rest => Some (<[key := v]> acc, bad, rest)
                      | None, None => None
                      end
                  end
              end
          end
      end
  end

(** The elements of an array after its bracket, up to the closing one. *)
with elements (fuel : nat) (depth : Z) (bad : option string) (l : list ascii)
    (acc : list any) {struct fuel} : option (list any * option string * list ascii) :=
  match fuel with
  | O => None
  | S fuel =>
      match value fuel depth bad l with
      | None => None
      | Some (v, bad, rest) =>
          match eat "," (skipSpace rest), eat "]" (skipSpace rest) with
          | Some rest, _ => elements fuel depth bad rest (v :: acc)
          | None, Some rest => Some (rev (v :: acc), bad, rest)
          | None, None => None
          end
      end
  end.

(** A whole document: one value and nothing but white space after it.
    The fuel bounds the depth of the calls, of which every second one
    starts further into the text: twice the length is enough. *)
Definition decode (data : string) : option (any * option string) :=
  let l := list_ascii_of_string data in
  match value (2 * length l + 2) 0 None l with
  | Some (v, bad, rest) =>
      match skipSpace rest with
      | [] => Some (v, bad)
      | _ :: _ => None
      end
  | None => None
  end.

(** [json.Unmarshal(data, &m)] for a nil [m] of type
    [map[string]interface{}].  A text that is not one JSON document is a
    syntax error.  An object fills the map, a later member replacing an
    earlier one of the same name, and a number in it that no [float64]
    holds is a type error that names the first such literal; [null]
    leaves the map nil; any other value is a type error and is skipped
    unread. *)
Definition Unmarshal (data : string) : Error + option (gmap string any) :=
  match decode data with
  | None => inl SyntaxError
  | Some (AnyMap fields, bad) =>
      match bad with
      | Some lit => inl (UnmarshalTypeError ("number " +:+ lit))
      | None => inr (Some fields)
      end
  | Some (AnyNil, _) => inr None
  | Some (AnyBool _, _) => inl (UnmarshalTypeError "bool")
  | Some (AnyNumber _, _) => inl (UnmarshalTypeError "number")
  | Some (AnyString _, _) => inl (UnmarshalTypeError "string")
  | Some (AnySlice _, _) => inl (UnmarshalTypeError "array")
  end.

End json.

(** ** Package net/http *)

Module http.

Definition Header : Type := gmap string (list string).

Definition isLower (c : ascii) : bool :=
  (97 <=? nat_of_ascii c) && (nat_of_ascii c <=? 122).
Definition isUpper (c : ascii) : bool :=
  (65 <=? nat_of_ascii c) && (nat_of_ascii c <=? 90).

(** The bytes of an RFC 7230 token. *)
Definition validHeaderFieldByte (c : ascii) : bool :=
  isLower c || isUpper c || strconv.isDigit c
  || existsb (Ascii.eqb c) (list_ascii_of_string "!#$%&'*+-.^_`|~").

Fixpoint canonical (upper : bool) (l : list ascii) : list ascii :=
  match l with
  | [] => []
  | c :: rest =>
      let c' :=
        if upper && isLower c then ascii_of_nat (nat_of_ascii c - 32)
        else if negb upper && isUpper c then ascii_of_nat (nat_of_ascii c + 32)
        else c in
      c' :: canonical (Ascii.eqb c' "-"%char) rest
  end.

(** [textproto.CanonicalMIMEHeaderKey]: a key of token bytes gets its
    first letter and every letter after a hyphen in upper case and the
    others in lower case; any other key is left as it is. *)
Definition CanonicalMIMEHeaderKey (s : string) : string :=
  let l := list_ascii_of_string s in
  if forallb validHeaderFieldByte l
  then string_of_list_ascii (canonical true l)
  else s.

(** [Header.Get]: the first value under the canonical key, the empty string if none. *)
Definition Get (h : Header) (key : string) : string :=
  match h !! CanonicalMIMEHeaderKey key with
  | Some (v :: _) => v
  | _ => EmptyString
  end.

Definition Set_ (h : Header) (key value : string) : Header :=
  <[CanonicalMIMEHeaderKey key := [value]]> h.

Definition Del (h : Header) (key : string) : Header :=
  delete (CanonicalMIMEHeaderKey key) h.

Record Request : Type := {
  Method : string;
  URL : string;
  RequestHeader : Header
}.

(** The response as written so far. *)
Record ResponseWriter : Type := {
  ResponseHeader : Header;
  Status : option Z;
  Body : string
}.

Definition StatusUnauthorized : Z := 401.

Definition WriteHeader (w : ResponseWriter) (code : Z) : ResponseWriter :=
  match Status w with
  | Some _ => w
  | None => {| ResponseHeader := ResponseHeader w; Status := Some code; Body := Body w |}
  end.

Definition Write (w : ResponseWriter) (data : string) : ResponseWriter :=
  let w := WriteHeader w 200 in
  {| ResponseHeader := ResponseHeader w; Status := Status w; Body := Body w +:+ data |}.

(** [http.Error]: a plain text reply with the given status. *)
Definition Error (w : ResponseWriter) (err : string) (code : Z) : ResponseWriter :=
  let h := Del (ResponseHeader w) "Content-Length" in
  let h := Set_ h "Content-Type" "text/plain; charset=utf-8" in
  let h := Set_ h "X-Content-Type-Options" "nosniff" in
  let w := {| ResponseHeader := h; Status := Status w; Body := Body w |} in
  let w := WriteHeader w code in
  Write w (err +:+ String "010"%char EmptyString).

Definition Handler : Type := ResponseWriter -> Request -> ResponseWriter.

(** [http.Server], with the time-outs in seconds. *)
Record Server : Type := {
  Addr : string;
  ReadTimeout : Z;
  WriteTimeout : Z;
  IdleTimeout : Z
}.

End http.

(** ** The server: package main of cmd/yardstick-server, with the auth gate *)

Module server.

Import regexp.

Record EchoRequest : Type := { Input : string }.
Record EchoResponse : Type := { Output : string }.

Definition alphanumericRegex : Regexp := MustCompile "^[a-zA-Z0-9]+$".

Definition validateAlphanumeric (input : string) : bool :=
  MatchString alphanumericRegex input.

(** The handler takes a context and a request it never looks at. *)
Definition echoHandler {Ctx : Type} (_ : Ctx) (_ : option mcp.CallToolRequest)
    (params : EchoRequest)
  : option mcp.CallToolResult * EchoResponse * option error :=
  if negb (validateAlphanumeric (Input params)) then
    (Some {| mcp.ResultMeta := None;
             mcp.ResultContent :=
               [mcp.ContentText {| mcp.Text := "input must be alphanumeric only" |}];
             mcp.IsError := true |},
     {| Output := EmptyString |},
     None)
  else
    let response := {| Output := Input params |} in
    (None, response, None).

(** The package level variables [transport], [port], [authHeader] and
    [authValue]. *)
Record Globals : Type := {
  transport : string;
  port : Z;
  authHeader : string;
  authValue : string
}.

Definition checkAuth (g : Globals) (r : http.Request) : option error :=
  if String.eqb (authHeader g) EmptyString then None
  else if negb (String.eqb (http.Get (http.RequestHeader r) (authHeader g)) (authValue g))
  then Some "unauthorized"%string
  else None.

Definition authWrapper (g : Globals) (next : http.Handler) : http.Handler :=
  fun w r =>
    match checkAuth g r with
    | Some err => http.Error w err http.StatusUnauthorized
    | None => next w r
    end.

(** [parseConfig]: the flags, then the environment on top of them. *)
Definition parseConfig (cl : flag.CommandLine) (env : os.Env) : Globals :=
  let transport := flag.StringVar cl "transport" "stdio" in
  let port := flag.IntVar cl "port" 8080 in
  let transport :=
    match os.LookupEnv env "MCP_TRANSPORT" with
    | Some t => t
    | None => transport
    end in
  let port :=
    match os.LookupEnv env "PORT" with
    | Some p =>
        match strconv.Atoi p with
        | Some intValue => intValue
        | None => port
        end
    | None => port
    end in
  {| transport := transport;
     port := port;
     authHeader := os.Getenv env "AUTH_HEADER";
     authValue := os.Getenv env "AUTH_VALUE" |}.

(** What [main] does to the outside, in order. *)
Inductive Event : Type :=
  | Log (line : string)
  | Stderr (text : string)
  | NewServer (name version : string)
  | AddTool (name description : string)
  | Run
  | Handle (pattern : string) (handler : http.Handler)
  | ListenAndServe (srv : http.Server)
  | Exit (code : Z).

Section Main.

(** The handlers the SDK builds for the two HTTP transports. *)
Variables NewSSEHandler NewStreamableHTTPHandler : http.Handler.
(** What the blocking calls return once they do: [server.Run] when the
    peer is gone, [ListenAndServe] always with an error. *)
Variable runErr : option error.
Variable serveErr : error.

Definition httpServer (g : Globals) : http.Server :=
  {| http.Addr := ":" +:+ strconv.Itoa (port g);
     http.ReadTimeout := 30;
     http.WriteTimeout := 30;
     http.IdleTimeout := 60 |}.

(** The [switch transport] of [main]. *)
Definition serve (g : Globals) : list Event :=
  if String.eqb (transport g) "stdio" then
    [Log "Starting MCP server with stdio transport"; Run]
    ++ match runErr with
       | Some err => [Log ("Failed to run server:" +:+ err); Exit 1]
       | None => []
       end
  else if String.eqb (transport g) "sse" then
    [Log ("Starting MCP server with SSE transport on port " +:+ strconv.Itoa (port g));
     Log ("SSE endpoint: http://localhost:" +:+ strconv.Itoa (port g) +:+ "/sse");
     Log "Messages will be handled automatically by the SSE handler";
     Handle "/sse" (authWrapper g NewSSEHandler);
     ListenAndServe (httpServer g);
     Log serveErr; Exit 1]
  else if String.eqb (transport g) "streamable-http" then
    [Log ("Starting MCP server with streamable HTTP transport on port "
          +:+ strconv.Itoa (port g));
     Handle "/mcp" (authWrapper g NewStreamableHTTPHandler);
     ListenAndServe (httpServer g);
     Log serveErr; Exit 1]
  else
    [Stderr ("Unknown transport type: " +:+ transport g +:+ String "010"%char EmptyString);
     Stderr ("Supported transports: stdio, sse, streamable-http"
             +:+ String "010"%char EmptyString);
     Exit 1].

Definition main (cl : flag.CommandLine) (env : os.Env) : list Event :=
  let g := parseConfig cl env in
  [NewServer "echo-server" "1.0.0";
   AddTool "echo" "Echo back an alphanumeric string for deterministic testing"]
  ++ serve g.

End Main.

(** Does the event start serving a transport? *)
Definition startsListener (e : Event) : bool :=
  match e with
  | Run | Handle _ _ | ListenAndServe _ => true
  | _ => false
  end.

End server.

(** ** The server before the auth gate: the revision of
    cmd/yardstick-server/main.go on the SDK's first handler API *)

Module legacy.

Record CallToolResultFor : Type := { Content : list mcp.Content }.

Definition echoHandler {Ctx Session : Type} (_ : Ctx) (_ : Session)
    (params : server.EchoRequest)
  : option CallToolResultFor * option error :=
  if negb (server.validateAlphanumeric (server.Input params)) then
    (None, Some "input must be alphanumeric only"%string)
  else
    let response := {| server.Output := server.Input params |} in
    (Some {| Content := [mcp.ContentText {| mcp.Text := server.Output response |}] |},
     None).

Record Globals : Type := {
  transport : string;
  port : Z
}.

Definition parseConfig (cl : flag.CommandLine) (env : os.Env) : Globals :=
  let transport := flag.StringVar cl "transport" "stdio" in
  let port := flag.IntVar cl "port" 8080 in
  let transport :=
    match os.LookupEnv env "TRANSPORT" with
    | Some t => t
    | None => transport
    end in
  let port :=
    match os.LookupEnv env "PORT" with
    | Some p =>
        match strconv.Atoi p with
        | Some intValue => intValue
        | None => port
        end
    | None => port
    end in
  {| transport := transport; port := port |}.

Section Main.

Variables NewSSEHandler NewStreamableHTTPHandler : http.Handler.
Variable runErr : option error.
Variable serveErr : error.

Definition httpServer (g : Globals) : http.Server :=
  {| http.Addr := ":" +:+ strconv.Itoa (port g);
     http.ReadTimeout := 30;
     http.WriteTimeout := 30;
     http.IdleTimeout := 60 |}.

(** The [switch transport] of this revision: the handlers of the SDK are
    mounted as they are. *)
Definition serve (g : Globals) : list server.Event :=
  if String.eqb (transport g) "stdio" then
    [server.Log "Starting MCP server with stdio transport"; server.Run]
    ++ match runErr with
       | Some err => [server.Log ("Failed to run server:" +:+ err); server.Exit 1]
       | None => []
       end
  else if String.eqb (transport g) "sse" then
    [server.Log ("Starting MCP server with SSE transport on port "
                 +:+ strconv.Itoa (port g));
     server.Log ("SSE endpoint: http://localhost:" +:+ strconv.Itoa (port g) +:+ "/sse");
     server.Log "Messages will be handled automatically by the SSE handler";
     server.Handle "/sse" NewSSEHandler;
     server.ListenAndServe (httpServer g);
     server.Log serveErr; server.Exit 1]
  else if String.eqb (transport g) "streamable-http" then
    [server.Log ("Starting MCP server with streamable HTTP transport on port "
                 +:+ strconv.Itoa (port g));
     server.Handle "/mcp" NewStreamableHTTPHandler;
     server.ListenAndServe (httpServer g);
     server.Log serveErr; server.Exit 1]
  else
    [server.Stderr ("Unknown transport type: " +:+ transport g
                    +:+ String "010"%char EmptyString);
     server.Stderr ("Supported transports: stdio, sse, streamable-http"
                    +:+ String "010"%char EmptyString);
     server.Exit 1].

Definition main (cl : flag.CommandLine) (env : os.Env) : list server.Event :=
  let g := parseConfig cl env in
  [server.NewServer "echo-server" "1.0.0";
   server.AddTool "echo" "Echo back an alphanumeric string for deterministic testing"]
  ++ serve g.

End Main.

End legacy.

(** ** The client: package main of cmd/yardstick-client *)

Module client.

Record Config : Type := {
  Transport : string;
  Address : string;
  Port : Z;
  Command : string;
  Args : list string;
  Timeout : Z
}.

(** The transports the SDK offers to a client. *)
Inductive Transport_ : Type :=
  | CommandTransport (name : string) (args : list string)
  | SSEClientTransport (url : string)
  | StreamableClientTransport (url : string).

Record Tool : Type := { ToolName : string; ToolDescription : string }.
Record Resource : Type := { URI : string; ResourceDescription : string }.

(** The other side, as the session of the SDK shows it: what each request
    comes back with.  [None] is a nil error. *)
Record Peer : Type := {
  connect : Transport_ -> option error;
  sessionID : string;
  ping : option error;
  listTools : error + list Tool;
  listResources : error + list Resource;
  callTool : string -> option (gmap string any) -> error + list mcp.Content
}.

(** The calls of [log.Fatal] and [log.Fatalf] in [main]; each prints its
    message to standard error and leaves with status 1. *)
Inductive Fatal : Type :=
  | FailedToConnect (err : error)
  | FailedToGetServerInfo (err : error)
  | FailedToListTools (err : error)
  | FailedToListResources (err : error)
  | ToolNameRequired
  | FailedToParseToolArguments (err : json.Error)
  | FailedToCallTool (err : error)
  | UnknownAction (action : string).

(** How a call ends: it returns, or it panics.  Nothing here recovers
    from a panic: it takes the process down with status 2.  The one place
    that panics is reached from [Connect], when [main] has deferred only
    the cancelling of its context and not yet the closing of the session. *)
Inductive Outcome (A : Type) : Type :=
  | Returns (a : A)
  | Panics (value : string).
Arguments Returns {A} a.
Arguments Panics {A} value.

Inductive Event : Type :=
  | SessionConnect (t : Transport_)
  | SessionPing
  | SessionListTools
  | SessionListResources
  | SessionCallTool (name : string) (arguments : option (gmap string any))
  | SessionClose
  | Stdout (text : string)
  | StdoutJSON (content : list mcp.Content)
  | LogFatal (f : Fatal)
  | Panic (value : string).

(** The events that go over the transport. *)
Definition isNetwork (e : Event) : bool :=
  match e with
  | SessionConnect _ | SessionPing | SessionListTools | SessionListResources
  | SessionCallTool _ _ | SessionClose => true
  | Stdout _ | StdoutJSON _ | LogFatal _ | Panic _ => false
  end.

Definition nl : string := String "010"%char EmptyString.

Definition connectStdio (c : Config) : error + Transport_ :=
  if String.eqb (Command c) EmptyString
  then inl "command is required for stdio transport"%string
  else inr (CommandTransport (Command c) (Args c)).

Section Libraries.

(** [url.Parse] as the SDK calls it on the address of the server: the
    error it reports, if any. *)
Variable urlParse : string -> option error.

(** [json.Unmarshal] into a nil [map[string]interface{}]; [json.Unmarshal]
    above is the decoder the examples run. *)
Variable Unmarshal : string -> json.Error + option (gmap string any).

(** [mcp.NewSSEClientTransport] parses the address and panics with the
    error if it does not parse; the method itself never returns one. *)
Definition connectSSE (c : Config) : Outcome (error + Transport_) :=
  let url := "http://" +:+ Address c +:+ ":" +:+ strconv.Itoa (Port c) +:+ "/sse" in
  match urlParse url with
  | Some err => Panics err
  | None => Returns (inr (SSEClientTransport url))
  end.

(** [mcp.NewStreamableClientTransport] keeps the address as it is given. *)
Definition connectStreamableHTTP (c : Config) : error + Transport_ :=
  inr (StreamableClientTransport
         ("http://" +:+ Address c +:+ ":" +:+ strconv.Itoa (Port c) +:+ "/mcp")).

(** The second half of [Connect], once the transport has been asked for. *)
Definition dial (peer : Peer) (made : Outcome (error + Transport_))
  : list Event * Outcome (option error) :=
  match made with
  | Panics value => ([], Panics value)
  | Returns (inl err) => ([], Returns (Some ("failed to create transport: " +:+ err)))
  | Returns (inr transport) => ([SessionConnect transport], Returns (connect peer transport))
  end.

(** Each method gives the events it causes and the error it returns. *)
Definition Connect (peer : Peer) (c : Config) : list Event * Outcome (option error) :=
  if String.eqb (Transport c) "stdio" then dial peer (Returns (connectStdio c))
  else if String.eqb (Transport c) "sse" then dial peer (connectSSE c)
  else if String.eqb (Transport c) "streamable-http"
  then dial peer (Returns (connectStreamableHTTP c))
  else ([], Returns (Some ("unsupported transport type: " +:+ Transport c))).

Definition ListTools (peer : Peer) : list Event * option error :=
  match listTools peer with
  | inl err => ([SessionListTools], Some ("failed to list tools: " +:+ err))
  | inr tools =>
      ([SessionListTools;
        Stdout ("Available tools (" +:+ strconv.Itoa (Z.of_nat (length tools)) +:+ "):" +:+ nl)]
       ++ map (fun tool =>
                 Stdout ("  - " +:+ ToolName tool +:+ ": " +:+ ToolDescription tool +:+ nl))
              tools,
       None)
  end.

Definition CallTool (peer : Peer) (toolName : string)
    (arguments : option (gmap string any)) : list Event * option error :=
  match callTool peer toolName arguments with
  | inl err =>
      ([SessionCallTool toolName arguments],
       Some ("failed to call tool " +:+ toolName +:+ ": " +:+ err))
  | inr content => ([SessionCallTool toolName arguments; StdoutJSON content], None)
  end.

Definition ListResources (peer : Peer) : list Event * option error :=
  match listResources peer with
  | inl err => ([SessionListResources], Some ("failed to list resources: " +:+ err))
  | inr resources =>
      ([SessionListResources;
        Stdout ("Available resources (" +:+ strconv.Itoa (Z.of_nat (length resources))
                +:+ "):" +:+ nl)]
       ++ map (fun resource =>
                 Stdout ("  - " +:+ URI resource +:+ ": "
                         +:+ ResourceDescription resource +:+ nl))
              resources,
       None)
  end.

Definition GetServerInfo (peer : Peer) : list Event * option error :=
  match ping peer with
  | Some err => ([SessionPing], Some ("failed to ping server: " +:+ err))
  | None =>
      ([SessionPing;
        Stdout ("Server Info:" +:+ nl);
        Stdout ("  Session ID: " +:+ sessionID peer +:+ nl);
        Stdout ("  Connection: Active" +:+ nl);
        SessionListTools]
       ++ match listTools peer with
          | inr tools =>
              [Stdout ("  Tools Available: " +:+ strconv.Itoa (Z.of_nat (length tools)) +:+ nl)]
          | inl _ => []
          end
       ++ [SessionListResources]
       ++ match listResources peer with
          | inr resources =>
              [Stdout ("  Resources Available: "
                       +:+ strconv.Itoa (Z.of_nat (length resources)) +:+ nl)]
          | inl _ => []
          end,
       None)
  end.

(** [parseConfig] also leaves the action, the tool name and the argument
    blob in the environment, where [main] picks them up.  The time-out is
    in nanoseconds. *)
Definition parseConfig (cl : flag.CommandLine) (env : os.Env) : Config * os.Env :=
  let transport := flag.StringVar cl "transport" "stdio" in
  let address := flag.StringVar cl "address" "localhost" in
  let port := flag.IntVar cl "port" 8080 in
  let command := flag.StringVar cl "command" EmptyString in
  let timeout := flag.DurationVar cl "timeout" 30000000000 in
  let action := flag.StringVar cl "action" "info" in
  let toolName := flag.StringVar cl "tool" EmptyString in
  let toolArgs := flag.StringVar cl "args" "{}" in
  let args := if negb (String.eqb command EmptyString) then flag.Args cl else [] in
  let transport := default transport (os.LookupEnv env "TRANSPORT") in
  let address := default address (os.LookupEnv env "ADDRESS") in
  let port :=
    match os.LookupEnv env "PORT" with
    | Some p => default port (strconv.Atoi p)
    | None => port
    end in
  let command := default command (os.LookupEnv env "COMMAND") in
  let env := os.Setenv env "CLIENT_ACTION" action in
  let env := os.Setenv env "CLIENT_TOOL_NAME" toolName in
  let env := os.Setenv env "CLIENT_TOOL_ARGS" toolArgs in
  ({| Transport := transport; Address := address; Port := port;
      Command := command; Args := args; Timeout := timeout |},
   env).

(** Run a method; a returned error is fatal, otherwise [main] returns and
    the deferred [Close] runs. *)
Definition orFatal (r : list Event * option error) (f : error -> Fatal) : list Event :=
  match snd r with
  | Some err => fst r ++ [LogFatal (f err)]
  | None => fst r ++ [SessionClose]
  end.

Definition main (cl : flag.CommandLine) (env : os.Env) (peer : Peer) : list Event :=
  let '(config, env) := parseConfig cl env in
  let connected := Connect peer config in
  match snd connected with
  | Panics value => fst connected ++ [Panic value]
  | Returns (Some err) => fst connected ++ [LogFatal (FailedToConnect err)]
  | Returns None =>
      let action := os.Getenv env "CLIENT_ACTION" in
      let toolName := os.Getenv env "CLIENT_TOOL_NAME" in
      let toolArgs := os.Getenv env "CLIENT_TOOL_ARGS" in
      fst connected ++
      if String.eqb action "info" then
        orFatal (GetServerInfo peer) FailedToGetServerInfo
      else if String.eqb action "list-tools" then
        orFatal (ListTools peer) FailedToListTools
      else if String.eqb action "list-resources" then
        orFatal (ListResources peer) FailedToListResources
      else if String.eqb action "call-tool" then
        if String.eqb toolName EmptyString then [LogFatal ToolNameRequired]
        else
          match Unmarshal toolArgs with
          | inl err => [LogFatal (FailedToParseToolArguments err)]
          | inr arguments => orFatal (CallTool peer toolName arguments) FailedToCallTool
          end
      else [LogFatal (UnknownAction action)]
  end.

End Libraries.

End client.

(** * The vocabulary of the properties, and the fixtures of the tests *)

(** The class of the server's pattern. *)
Definition alnumClass : list regexp.Range :=
  [("a"%char, "z"%char); ("A"%char, "Z"%char); ("0"%char, "9"%char)].

(** An ASCII letter or digit, by character code. *)
Definition isAsciiAlnum (c : ascii) : Prop :=
  let n := nat_of_ascii c in
  (97 <= n <= 122) \/ (65 <= n <= 90) \/ (48 <= n <= 57).

(** The request of the metadata test: [progressToken] set, input valid. *)
Definition requestWithMeta : mcp.CallToolRequest :=
  {| mcp.Params :=
       Some {| mcp.ParamsMeta := Some {[ "progressToken"%string := AnyString "task123" ]};
               mcp.Name := "echo";
               mcp.Arguments := EmptyString |} |}.

(** The gate of the repository's tests. *)
Definition testGate : server.Globals :=
  {| server.transport := "sse"; server.port := 8080;
     server.authHeader := "X-Auth-Token"; server.authValue := "secret123" |}.

Definition requestWith (h : http.Header) : http.Request :=
  {| http.Method := "GET"; http.URL := "/test"; http.RequestHeader := h |}.

Definition freshResponse : http.ResponseWriter :=
  {| http.ResponseHeader := ∅; http.Status := None; http.Body := EmptyString |}.

Definition unknownTransportMessages (name : string) : list server.Event :=
  [server.Stderr ("Unknown transport type: " +:+ name +:+ String "010"%char EmptyString);
   server.Stderr ("Supported transports: stdio, sse, streamable-http"
                  +:+ String "010"%char EmptyString);
   server.Exit 1].

(** A decimal digit, by character code. *)
Definition isDecimal (c : ascii) : Prop := 48 <= nat_of_ascii c <= 57.

(** The number a run of decimal digits writes, by place value. *)
Fixpoint fromDigits (ds : list ascii) : Z :=
  match ds with
  | [] => 0%Z
  | d :: rest =>
      ((Z.of_nat (nat_of_ascii d) - 48) * 10 ^ Z.of_nat (length rest) + fromDigits rest)%Z
  end.

(** The text of an integer: an optional sign, then the digits [ds], at
    least one; [neg] tells a minus sign. *)
Definition integerText (s : string) (neg : bool) (ds : list ascii) : Prop :=
  ds <> [] /\ Forall isDecimal ds
  /\ ((list_ascii_of_string s = ds /\ neg = false)
      \/ (list_ascii_of_string s = "+"%char :: ds /\ neg = false)
      \/ (list_ascii_of_string s = "-"%char :: ds /\ neg = true)).

Definition signedValue (neg : bool) (ds : list ascii) : Z :=
  if neg then (- fromDigits ds)%Z else fromDigits ds.

(** The values of the flags, with their defaults. *)
Definition transportFlag (cl : flag.CommandLine) : string :=
  default "stdio"%string (flag.strings cl !! "transport"%string).
Definition portFlag (cl : flag.CommandLine) : Z :=
  default 8080%Z (flag.ints cl !! "port"%string).

(** [--transport sse --port 9000] *)
Definition sse9000 : flag.CommandLine :=
  {| flag.strings := {[ "transport"%string := "sse"%string ]};
     flag.ints := {[ "port"%string := 9000%Z ]};
     flag.durations := ∅; flag.positional := [] |}.

Section ClientVocabulary.

Import client.

(** What [main] reads back from the environment after [parseConfig]. *)
Definition actionOf (cl : flag.CommandLine) (env : os.Env) : string :=
  os.Getenv (snd (parseConfig cl env)) "CLIENT_ACTION".
Definition toolNameOf (cl : flag.CommandLine) (env : os.Env) : string :=
  os.Getenv (snd (parseConfig cl env)) "CLIENT_TOOL_NAME".
Definition toolArgsOf (cl : flag.CommandLine) (env : os.Env) : string :=
  os.Getenv (snd (parseConfig cl env)) "CLIENT_TOOL_ARGS".

(** The invocation asks for [call-tool] with a blob that the decoder
    rejects. *)
Definition callToolMalformed (Unmarshal : string -> json.Error + option (gmap string any))
    (cl : flag.CommandLine) (env : os.Env) : Prop :=
  actionOf cl env = "call-tool"%string
  /\ exists err, Unmarshal (toolArgsOf cl env) = inl err.

(** Nothing in the trace goes over the transport. *)
Definition networkFree (trace : list Event) : Prop :=
  Forall (fun e => isNetwork e = false) trace.

Definition isFatal (e : Event) : bool :=
  match e with LogFatal _ => true | _ => false end.

Definition isCallTool (e : Event) : bool :=
  match e with SessionCallTool _ _ => true | _ => false end.

(** [-transport sse -action call-tool -tool echo -args 'not json'] *)
Definition malformedCall : flag.CommandLine :=
  {| flag.strings :=
       {[ "transport"%string := "sse"%string; "action"%string := "call-tool"%string;
          "tool"%string := "echo"%string; "args"%string := "not json"%string ]};
     flag.ints := ∅; flag.durations := ∅; flag.positional := [] |}.

(** No flags at all. *)
Definition noFlags : flag.CommandLine :=
  {| flag.strings := ∅; flag.ints := ∅; flag.durations := ∅; flag.positional := [] |}.

(** [-transport sse], the action left at [info]. *)
Definition sseInfo : flag.CommandLine :=
  {| flag.strings := {[ "transport"%string := "sse"%string ]};
     flag.ints := ∅; flag.durations := ∅; flag.positional := [] |}.

(** [-transport sse -action call-tool -tool echo], the arguments left at
    the empty object. *)
Definition sseCallTool : flag.CommandLine :=
  {| flag.strings :=
       {[ "transport"%string := "sse"%string; "action"%string := "call-tool"%string;
          "tool"%string := "echo"%string ]};
     flag.ints := ∅; flag.durations := ∅; flag.positional := [] |}.

(** [-- --transport stdio]: arguments for a command that only the
    environment names. *)
Definition trailingArgs : flag.CommandLine :=
  {| flag.strings := ∅; flag.ints := ∅; flag.durations := ∅;
     flag.positional := ["--transport"; "stdio"]%string |}.

(** A server that is up and answers every request. *)
Definition livePeer : Peer :=
  {| connect := fun _ => None;
     sessionID := "session-1";
     ping := None;
     listTools := inr [{| ToolName := "echo"; ToolDescription := "Echo" |}];
     listResources := inr [];
     callTool := fun _ _ => inr [] |}.

(** The requests a session carries once it is open. *)
Definition isRequest (e : Event) : bool :=
  match e with
  | SessionPing | SessionListTools | SessionListResources | SessionCallTool _ _ => true
  | _ => false
  end.

Definition isClose (e : Event) : bool :=
  match e with SessionClose => true | _ => false end.

Definition isPing (e : Event) : bool :=
  match e with SessionPing => true | _ => false end.

Definition isListTools (e : Event) : bool :=
  match e with SessionListTools => true | _ => false end.

Definition isListResources (e : Event) : bool :=
  match e with SessionListResources => true | _ => false end.

(** A test of events that no line of output passes. *)
Definition silent (P : Event -> bool) : Prop :=
  (forall s, P (Stdout s) = false) /\ (forall c, P (StdoutJSON c) = false).

(** The values [parseConfig] takes from the flags for the action. *)
Definition actionFlag (cl : flag.CommandLine) : string :=
  flag.StringVar cl "action" "info".
Definition toolFlag (cl : flag.CommandLine) : string :=
  flag.StringVar cl "tool" EmptyString.
Definition argsFlag (cl : flag.CommandLine) : string :=
  flag.StringVar cl "args" "{}".

(** An invocation that names neither a transport nor a command. *)
Definition bare (cl : flag.CommandLine) (env : os.Env) : Prop :=
  flag.strings cl !! "transport"%string = None
  /\ flag.strings cl !! "command"%string = None
  /\ env !! "TRANSPORT"%string = None
  /\ env !! "COMMAND"%string = None.

Definition isStdout (e : Event) : bool :=
  match e with Stdout _ | StdoutJSON _ => true | _ => false end.

Definition isPanic (e : Event) : bool :=
  match e with Panic _ => true | _ => false end.

(** The event that ends a run: a fatal error, a panic or the closing of
    the session. *)
Definition isTerminal (e : Event) : bool := isFatal e || isPanic e || isClose e.

(** The address [connectSSE] hands to the SDK. *)
Definition sseURL (c : Config) : string :=
  "http://" +:+ Address c +:+ ":" +:+ strconv.Itoa (Port c) +:+ "/sse".

(** A configuration from which a transport can be built: [stdio] with a
    command, [sse] with an address that parses, [streamable-http]. *)
Definition connectable (urlParse : string -> option error) (c : Config) : bool :=
  (String.eqb (Transport c) "stdio" && negb (String.eqb (Command c) EmptyString))
  || (String.eqb (Transport c) "sse"
      && match urlParse (sseURL c) with None => true | Some _ => false end)
  || String.eqb (Transport c) "streamable-http".

Definition quote : string := String "034"%char EmptyString.

(** [url.Parse] on the addresses of the examples: a port of -3, as in
    [http://localhost:-3/sse], is refused, the others parse. *)
Definition parseExample (url : string) : option error :=
  if String.eqb url "http://localhost:-3/sse"
  then Some ("parse " +:+ quote +:+ url +:+ quote +:+ ": invalid port "
             +:+ quote +:+ ":-3" +:+ quote +:+ " after host")
  else None.

(** [-transport sse -action call-tool -tool echo -args '{"n":1e400}'] *)
Definition overflowCall : flag.CommandLine :=
  {| flag.strings :=
       {[ "transport"%string := "sse"%string; "action"%string := "call-tool"%string;
          "tool"%string := "echo"%string;
          "args"%string := ("{" +:+ quote +:+ "n" +:+ quote +:+ ":1e400}")%string ]};
     flag.ints := ∅; flag.durations := ∅; flag.positional := [] |}.

(** [-transport sse -port -3] *)
Definition ssePortMinus3 : flag.CommandLine :=
  {| flag.strings := {[ "transport"%string := "sse"%string ]};
     flag.ints := {[ "port"%string := (-3)%Z ]};
     flag.durations := ∅; flag.positional := [] |}.

End ClientVocabulary.

(** The events of the server by kind. *)
Definition isRun (e : server.Event) : bool :=
  match e with server.Run => true | _ => false end.

Definition isListen (e : server.Event) : bool :=
  match e with server.ListenAndServe _ => true | _ => false end.

Definition isExit (e : server.Event) : bool :=
  match e with server.Exit _ => true | _ => false end.

Definition mountsAt (pattern : string) (e : server.Event) : bool :=
  match e with server.Handle p _ => String.eqb p pattern | _ => false end.

Definition isHandle (e : server.Event) : bool :=
  match e with server.Handle _ _ => true | _ => false end.

(** An event with the handler it mounts, if any, left out. *)
Definition unmounted (e : server.Event) : server.Event :=
  match e with
  | server.Handle p _ => server.Handle p (fun w _ => w)
  | _ => e
  end.

(** The globals of the server as the revision before the gate has them. *)
Definition withoutGate (g : server.Globals) : legacy.Globals :=
  {| legacy.transport := server.transport g; legacy.port := server.port g |}.

(** The same gate under another header name. *)
Definition withHeader (g : server.Globals) (name : string) : server.Globals :=
  {| server.transport := server.transport g; server.port := server.port g;
     server.authHeader := name; server.authValue := server.authValue g |}.

(** * Properties *)

(** ** The validator *)

Section Validator.

Import regexp.

Lemma inClass_alnum c :
  inClass alnumClass c = true <-> isAsciiAlnum c.
Proof.
  unfold inClass, alnumClass, inRange, isAsciiAlnum.
  cbn [existsb fst snd].
  change (nat_of_ascii "a") with 97. change (nat_of_ascii "z") with 122.
  change (nat_of_ascii "A") with 65. change (nat_of_ascii "Z") with 90.
  change (nat_of_ascii "0") with 48. change (nat_of_ascii "9") with 57.
  rewrite !orb_true_iff, !andb_true_iff, !Nat.leb_le. cbv zeta. intuition lia.
Qed.

Variable ranges : list Range.

(** One round of [[ranges]+] on a non-empty text. *)
Lemma iterate_class_cons fuel off c rest :
  iterate (run (OpCharClass ranges)) (S fuel) (off, c :: rest) =
  if inClass ranges c
  then (S off, rest) :: iterate (run (OpCharClass ranges)) fuel (S off, rest)
  else [].
Proof.
  cbn [iterate run snd fst]. destruct (inClass ranges c); [|reflexivity].
  cbn [flat_map snd length]. rewrite app_nil_r.
  assert (Hlt : (length rest <? S (length rest)) = true) by (apply Nat.ltb_lt; lia).
  rewrite Hlt. reflexivity.
Qed.

Lemma iterate_class_nil fuel off :
  iterate (run (OpCharClass ranges)) fuel (off, []) = [].
Proof. destruct fuel; reflexivity. Qed.

(** Every end position of [[ranges]+] is reached over a non-empty run of
    bytes of the class. *)
Lemma iterate_class_sound fuel : forall off text q,
  In q (iterate (run (OpCharClass ranges)) fuel (off, text)) ->
  exists pre, pre <> [] /\ text = pre ++ snd q
              /\ forallb (inClass ranges) pre = true
              /\ fst q = off + length pre.
Proof.
  induction fuel as [|fuel IH]; intros off text q Hin; [destruct Hin|].
  destruct text as [|c rest]; [rewrite iterate_class_nil in Hin; destruct Hin|].
  rewrite iterate_class_cons in Hin.
  destruct (inClass ranges c) eqn:Hc; [|destruct Hin].
  destruct Hin as [<-|Hin].
  - exists [c]. cbn. rewrite Hc. repeat split; [discriminate|lia].
  - apply IH in Hin as (pre & _ & Hsplit & Hall & Hoff).
    exists (c :: pre). cbn. rewrite Hc, Hall, Hsplit, Hoff.
    repeat split; [discriminate|lia].
Qed.

(** Conversely, every non-empty run of class bytes is an end position. *)
Lemma iterate_class_complete pre : forall fuel off rest,
  pre <> [] -> forallb (inClass ranges) pre = true ->
  length (pre ++ rest) <= fuel ->
  In (off + length pre, rest)
     (iterate (run (OpCharClass ranges)) fuel (off, pre ++ rest)).
Proof.
  induction pre as [|c pre IH]; intros fuel off rest Hne Hall Hfuel; [done|].
  cbn in Hall. apply andb_true_iff in Hall as [Hc Hall].
  destruct fuel as [|fuel]; [cbn in Hfuel; lia|].
  change ((c :: pre) ++ rest) with (c :: (pre ++ rest)).
  rewrite iterate_class_cons, Hc.
  destruct pre as [|c' pre].
  - left. f_equal. cbn. lia.
  - right.
    replace (off + length (c :: c' :: pre)) with (S off + length (c' :: pre))
      by (cbn; lia).
    apply IH; [discriminate|exact Hall|cbn in *; lia].
Qed.

End Validator.

Section ValidatorSpec.

Import regexp.

Lemma search_unfold re off text :
  search re off text =
  matchesAt re (off, text)
  || match text with [] => false | _ :: rest => search re (S off) rest end.
Proof. destruct text; reflexivity. Qed.

(** [^] fails at every offset but the first, so the search never finds a
    later start. *)
Lemma search_begin_anchored r1 r2 text : forall off,
  search (OpConcat (OpConcat OpBeginText r1) r2) (S off) text = false.
Proof.
  induction text as [|c text IH]; intros off; cbn; [reflexivity|apply IH].
Qed.

(** What the pattern compiles to. *)
Lemma alphanumericRegex_compiled :
  server.alphanumericRegex
  = OpConcat (OpConcat OpBeginText (OpPlus (OpCharClass alnumClass))) OpEndText.
Proof. vm_compute. reflexivity. Qed.

Lemma run_alphanumericRegex text :
  run server.alphanumericRegex (0, text) =
  flat_map (run OpEndText)
    (iterate (run (OpCharClass alnumClass)) (S (length text)) (0, text)).
Proof.
  rewrite alphanumericRegex_compiled.
  change (run (OpConcat (OpConcat OpBeginText (OpPlus (OpCharClass alnumClass)))
                 OpEndText) (0, text))
    with (flat_map (run OpEndText)
            (iterate (run (OpCharClass alnumClass)) (S (length text)) (0, text)
             ++ [])).
  rewrite app_nil_r. reflexivity.
Qed.

Lemma search_alphanumericRegex text :
  search server.alphanumericRegex 0 text = true <->
  text <> [] /\ forallb (inClass alnumClass) text = true.
Proof.
  assert (Hlater : match text with
                   | [] => false
                   | _ :: rest => search server.alphanumericRegex 1 rest
                   end = false)
    by (destruct text; [reflexivity|];
        rewrite alphanumericRegex_compiled; apply search_begin_anchored).
  rewrite search_unfold, Hlater, orb_false_r. clear Hlater.
  unfold matchesAt. rewrite run_alphanumericRegex.
  set (ends := iterate _ _ _). split.
  - intros Hm.
    destruct (flat_map (run OpEndText) ends) as [|q qs] eqn:Hq; [discriminate|].
    assert (Hin : In q (flat_map (run OpEndText) ends)) by (rewrite Hq; left; reflexivity).
    apply in_flat_map in Hin as ([off' rest'] & Hin & Hend).
    cbn in Hend. destruct rest' as [|? ?]; [|destruct Hend].
    apply iterate_class_sound in Hin as (pre & Hne & Hsplit & Hall & _).
    cbn in Hsplit. rewrite app_nil_r in Hsplit. subst pre. split; assumption.
  - intros [Hne Hall].
    assert (Hin : In (0 + length text, []) ends).
    { subst ends.
      pose proof (iterate_class_complete alnumClass text
                    (S (length text)) 0 [] Hne Hall) as Hin.
      rewrite app_nil_r in Hin. apply Hin. lia. }
    assert (Hin' : In (0 + length text, @nil ascii) (flat_map (run OpEndText) ends)).
    { apply in_flat_map. eexists; split; [exact Hin|]. left. reflexivity. }
    destruct (flat_map (run OpEndText) ends); [destruct Hin'|reflexivity].
Qed.

End ValidatorSpec.

(** C2. The validator accepts a string exactly when it is non-empty and each
    of its characters is an ASCII letter or digit; hence the empty string
    and every string holding any other character (space, punctuation,
    symbol, byte of a non-ASCII character) are rejected, whatever the
    length. *)
Theorem validateAlphanumeric_spec (s : string) :
  server.validateAlphanumeric s = true <->
  s <> EmptyString /\ (forall c, In c (list_ascii_of_string s) -> isAsciiAlnum c).
Proof.
  unfold server.validateAlphanumeric, regexp.MatchString.
  rewrite search_alphanumericRegex, forallb_forall.
  assert (Hnil : list_ascii_of_string s <> [] <-> s <> EmptyString)
    by (destruct s; cbn; split; congruence).
  rewrite Hnil. split; intros [Hne Hall]; (split; [exact Hne|]);
    intros c Hc; apply inClass_alnum, Hall, Hc.
Qed.

Lemma validateAlphanumeric_spec_witness :
  server.validateAlphanumeric "AbC123" = true.
Proof.
  apply (proj2 (validateAlphanumeric_spec "AbC123")). split; [discriminate|].
  intros c Hc. cbn in Hc.
  repeat (destruct Hc as [<-|Hc]; [vm_compute; lia|]). destruct Hc.
Defined.

(** The inputs of the repository's own validator test. *)
Example validateAlphanumeric_tests :
  map server.validateAlphanumeric
    ["abc123"; "abcdef"; "123456"; "AbC123"; EmptyString;
     "abc 123"; "abc!123"; "abc-123"; "abc_123"; "abc.123"]%string
  = [true; true; true; true; false; false; false; false; false; false].
Proof. vm_compute. reflexivity. Qed.

(** ** The echo handler *)

(** The accepting branch of the handler. *)
Lemma echoHandler_valid {Ctx : Type} (ctx : Ctx)
    (req : option mcp.CallToolRequest) (params : server.EchoRequest) :
  server.validateAlphanumeric (server.Input params) = true ->
  server.echoHandler ctx req params
  = (None, {| server.Output := server.Input params |}, None).
Proof.
  intros Hvalid. unfold server.echoHandler. rewrite Hvalid. reflexivity.
Qed.

(** C1. On an input the validator accepts, the handler answers with a
    response whose output is the input itself, unchanged. *)
Theorem echoHandler_identity {Ctx : Type} (ctx : Ctx)
    (req : option mcp.CallToolRequest) (params : server.EchoRequest) :
  server.validateAlphanumeric (server.Input params) = true ->
  server.Output (snd (fst (server.echoHandler ctx req params))) = server.Input params.
Proof.
  intros Hvalid. rewrite (echoHandler_valid ctx req params Hvalid). reflexivity.
Qed.

Lemma echoHandler_identity_witness :
  server.Output
    (snd (fst (server.echoHandler tt None {| server.Input := "test123" |})))
  = "test123"%string.
Proof.
  apply (echoHandler_identity tt None {| server.Input := "test123" |}).
  vm_compute. reflexivity.
Defined.

(** The earlier handler reports a rejected input as a Go error instead. *)
Lemma legacy_echoHandler_invalid {Ctx Session : Type} (ctx : Ctx) (ss : Session)
    (params : server.EchoRequest) :
  server.validateAlphanumeric (server.Input params) = false ->
  legacy.echoHandler ctx ss params = (None, Some "input must be alphanumeric only"%string).
Proof.
  intros Hinvalid. unfold legacy.echoHandler. rewrite Hinvalid. reflexivity.
Qed.

(** C3, as it stands, fails of the handler of cmd/yardstick-server/main.go:
    on the rejected input [test@123] its result is nil and its error is
    not. *)
Lemma legacy_echoHandler_raises :
  server.validateAlphanumeric "test@123" = false
  /\ fst (legacy.echoHandler tt tt {| server.Input := "test@123" |}) = None
  /\ snd (legacy.echoHandler tt tt {| server.Input := "test@123" |}) <> None.
Proof. split; [|split]; vm_compute; [reflexivity|reflexivity|discriminate]. Qed.

(** C3, amended.  On an input the validator rejects, the handler of the
    server with the auth gate returns a result that is not nil, is
    flagged as an error and holds the fixed text and nothing else; the
    response is the zero value and the error is nil.  The handler of the
    earlier revision returns a nil result and a Go error with that text. *)
Theorem echoHandler_invalid {Ctx Session : Type} (ctx : Ctx) (ss : Session)
    (req : option mcp.CallToolRequest) (params : server.EchoRequest) :
  server.validateAlphanumeric (server.Input params) = false ->
  server.echoHandler ctx req params =
  (Some {| mcp.ResultMeta := None;
           mcp.ResultContent :=
             [mcp.ContentText {| mcp.Text := "input must be alphanumeric only" |}];
           mcp.IsError := true |},
   {| server.Output := EmptyString |},
   None)
  /\ legacy.echoHandler ctx ss params
     = (None, Some "input must be alphanumeric only"%string).
Proof.
  intros Hinvalid. split; [|apply legacy_echoHandler_invalid, Hinvalid].
  unfold server.echoHandler. rewrite Hinvalid. reflexivity.
Qed.

Lemma echoHandler_invalid_witness :
  server.echoHandler tt None {| server.Input := "test@123" |} =
  (Some {| mcp.ResultMeta := None;
           mcp.ResultContent :=
             [mcp.ContentText {| mcp.Text := "input must be alphanumeric only" |}];
           mcp.IsError := true |},
   {| server.Output := EmptyString |},
   None)
  /\ legacy.echoHandler tt tt {| server.Input := "test@123" |}
     = (None, Some "input must be alphanumeric only"%string).
Proof.
  apply (echoHandler_invalid tt tt None {| server.Input := "test@123" |}).
  vm_compute. reflexivity.
Defined.

(** C4, on the code.  The handler never reads the request: a valid call
    that carries metadata gets a nil result, as one without metadata does,
    so the metadata does not come back. *)
Theorem echoHandler_drops_metadata :
  mcp.requestMeta requestWithMeta = Some {[ "progressToken"%string := AnyString "task123" ]}
  /\ server.echoHandler tt (Some requestWithMeta) {| server.Input := "hello" |}
     = (None, {| server.Output := "hello" |}, None)
  /\ server.echoHandler tt (Some {| mcp.Params := None |}) {| server.Input := "hello" |}
     = (None, {| server.Output := "hello" |}, None).
Proof. repeat split; vm_compute; reflexivity. Qed.

(** ** The auth gate *)

Section AuthGate.

Variable g : server.Globals.
Variable r : http.Request.

(** The value the gate reads from the request. *)
Let presented : string := http.Get (http.RequestHeader r) (server.authHeader g).

Lemma checkAuth_disabled :
  server.authHeader g = EmptyString -> server.checkAuth g r = None.
Proof. unfold server.checkAuth. intros ->. reflexivity. Qed.

Lemma checkAuth_enabled :
  server.authHeader g <> EmptyString ->
  server.checkAuth g r =
  if String.eqb presented (server.authValue g) then None else Some "unauthorized"%string.
Proof.
  intros Hne. unfold server.checkAuth.
  apply String.eqb_neq in Hne. rewrite Hne. fold presented.
  destruct (String.eqb presented (server.authValue g)); reflexivity.
Qed.

Lemma checkAuth_error err :
  server.checkAuth g r = Some err -> err = "unauthorized"%string.
Proof.
  unfold server.checkAuth.
  destruct (String.eqb (server.authHeader g) EmptyString); [discriminate|].
  destruct (negb _); [|discriminate]. congruence.
Qed.

End AuthGate.

(** [http.Error] on a fresh response sets the status it is given. *)
Lemma http_Error_status w err code :
  http.Status w = None -> http.Status (http.Error w err code) = Some code.
Proof.
  intros Hfresh. unfold http.Error, http.Write, http.WriteHeader. cbn.
  rewrite Hfresh. reflexivity.
Qed.

(** What [Header.Get] reads off the header map. *)
Lemma Get_first (h : http.Header) (name v : string) (vs : list string) :
  h !! http.CanonicalMIMEHeaderKey name = Some (v :: vs) -> http.Get h name = v.
Proof. unfold http.Get. intros ->. reflexivity. Qed.

Lemma Get_missing (h : http.Header) (name : string) :
  h !! http.CanonicalMIMEHeaderKey name = None
  \/ h !! http.CanonicalMIMEHeaderKey name = Some [] ->
  http.Get h name = EmptyString.
Proof. unfold http.Get. intros [-> | ->]; reflexivity. Qed.

(** C5. With an empty expected header name every request passes.
    Otherwise a request that carries the named header, which the header
    map files under its canonical form, passes exactly when the first
    value it carries is the expected value, byte for byte; a request
    without the header passes exactly when the expected value is empty;
    a request that does not pass fails with [unauthorized].  A failing
    request is answered with status 401 and the wrapped handler is not
    run, a passing one is handed to the wrapped handler. *)
Theorem checkAuth_spec (g : server.Globals) (r : http.Request) :
  let sent := http.RequestHeader r !! http.CanonicalMIMEHeaderKey (server.authHeader g) in
  (server.authHeader g = EmptyString -> server.checkAuth g r = None)
  /\ (server.authHeader g <> EmptyString ->
      (forall v vs, sent = Some (v :: vs) ->
         (server.checkAuth g r = None <-> v = server.authValue g)
         /\ (v <> server.authValue g -> server.checkAuth g r = Some "unauthorized"%string))
      /\ (sent = None \/ sent = Some [] ->
          (server.checkAuth g r = None <-> server.authValue g = EmptyString)
          /\ (server.authValue g <> EmptyString ->
              server.checkAuth g r = Some "unauthorized"%string)))
  /\ (forall (next : http.Handler) (w : http.ResponseWriter),
        server.checkAuth g r <> None ->
        server.authWrapper g next w r
        = http.Error w "unauthorized" http.StatusUnauthorized
        /\ (http.Status w = None ->
            http.Status (server.authWrapper g next w r) = Some 401%Z))
  /\ (forall (next : http.Handler) (w : http.ResponseWriter),
        server.checkAuth g r = None -> server.authWrapper g next w r = next w r).
Proof.
  intros sent. split; [apply checkAuth_disabled|]. split; [|split].
  - intros Hne. rewrite (checkAuth_enabled g r Hne). split.
    + intros v vs Hsent. rewrite (Get_first _ _ _ _ Hsent).
      destruct (String.eqb_spec v (server.authValue g)) as [Heq|Hneq].
      * split; [tauto|]. intros Hc. contradiction.
      * split; [|reflexivity]. split; [discriminate|contradiction].
    + intros Hsent. rewrite (Get_missing _ _ Hsent).
      destruct (String.eqb_spec EmptyString (server.authValue g)) as [Heq|Hneq].
      * split; [split; auto|]. intros Hc. congruence.
      * split; [|reflexivity]. split; [discriminate|]. intros Hc. congruence.
  - intros next w Hfail. unfold server.authWrapper.
    destruct (server.checkAuth g r) as [err|] eqn:Hc; [|contradiction].
    apply checkAuth_error in Hc as ->. split; [reflexivity|].
    apply http_Error_status.
  - intros next w Hpass. unfold server.authWrapper. rewrite Hpass. reflexivity.
Qed.

Example checkAuth_tests :
  server.checkAuth testGate
    (requestWith (http.Set_ ∅ "X-Auth-Token" "secret123")) = None
  /\ server.checkAuth testGate
       (requestWith (http.Set_ ∅ "X-Auth-Token" "wrongvalue")) = Some "unauthorized"%string
  /\ server.checkAuth testGate (requestWith ∅) = Some "unauthorized"%string
  /\ server.checkAuth testGate
       (requestWith (http.Set_ ∅ "X-Auth-Token" "Secret123")) = Some "unauthorized"%string.
Proof. repeat split; vm_compute; reflexivity. Qed.

(** The right token is let through to the wrapped handler, which answers
    204 here; a wrong token and a missing header are refused with 401. *)
Lemma checkAuth_spec_witness :
  let next : http.Handler := fun w _ => http.WriteHeader w 204 in
  server.checkAuth testGate (requestWith (http.Set_ ∅ "X-Auth-Token" "secret123")) = None
  /\ http.Status
       (server.authWrapper testGate next freshResponse
          (requestWith (http.Set_ ∅ "X-Auth-Token" "secret123")))
     = Some 204%Z
  /\ server.checkAuth testGate (requestWith (http.Set_ ∅ "X-Auth-Token" "wrongvalue"))
     = Some "unauthorized"%string
  /\ server.checkAuth testGate (requestWith ∅) = Some "unauthorized"%string
  /\ http.Status (server.authWrapper testGate next freshResponse (requestWith ∅))
     = Some 401%Z.
Proof.
  intros next.
  pose proof (checkAuth_spec testGate
                (requestWith (http.Set_ ∅ "X-Auth-Token" "secret123"))) as Hright.
  pose proof (checkAuth_spec testGate
                (requestWith (http.Set_ ∅ "X-Auth-Token" "wrongvalue"))) as Hwrong.
  pose proof (checkAuth_spec testGate (requestWith ∅)) as Hnone.
  cbv zeta in Hright, Hwrong, Hnone.
  destruct Hright as (_ & Hright & _ & Hpass).
  destruct (Hright ltac:(vm_compute; discriminate)) as (Hright' & _).
  destruct (Hright' "secret123"%string [] ltac:(vm_compute; reflexivity)) as (Haccept & _).
  destruct Hwrong as (_ & Hwrong & _).
  destruct (Hwrong ltac:(vm_compute; discriminate)) as (Hwrong' & _).
  destruct (Hwrong' "wrongvalue"%string [] ltac:(vm_compute; reflexivity)) as (_ & Hrefuse).
  destruct Hnone as (_ & Hnone & H401 & _).
  destruct (Hnone ltac:(vm_compute; discriminate)) as (_ & Hnone').
  destruct (Hnone' ltac:(left; vm_compute; reflexivity)) as (_ & Hmissing).
  assert (Hok := proj2 Haccept eq_refl).
  split; [exact Hok|]. split.
  - rewrite (Hpass next freshResponse Hok). reflexivity.
  - split; [apply Hrefuse; vm_compute; discriminate|].
    assert (Hno := Hmissing ltac:(vm_compute; discriminate)).
    split; [exact Hno|].
    apply H401; [rewrite Hno; discriminate|reflexivity].
Defined.

(** C10. A gate with a header name but an empty expected value lets every
    request through that does not carry the header: the missing header
    reads as the empty string, which is the expected value. *)
Theorem checkAuth_empty_value_missing_header (g : server.Globals) (r : http.Request) :
  server.authHeader g <> EmptyString ->
  server.authValue g = EmptyString ->
  http.RequestHeader r !! http.CanonicalMIMEHeaderKey (server.authHeader g) = None ->
  server.checkAuth g r = None.
Proof.
  intros Hne Hval Hmissing. rewrite (checkAuth_enabled g r Hne).
  unfold http.Get. rewrite Hmissing, Hval. reflexivity.
Qed.

Lemma checkAuth_empty_value_missing_header_witness :
  server.checkAuth
    {| server.transport := "sse"; server.port := 8080;
       server.authHeader := "X-Auth-Token"; server.authValue := EmptyString |}
    (requestWith (http.Set_ ∅ "Accept" "text/event-stream"))
  = None.
Proof.
  apply checkAuth_empty_value_missing_header.
  - cbn. discriminate.
  - reflexivity.
  - vm_compute. reflexivity.
Defined.

(** ** Transport selection *)

Section Transport.

Variables NewSSEHandler NewStreamableHTTPHandler : http.Handler.
Variable runErr : option error.
Variable serveErr : error.

Let serve := server.serve NewSSEHandler NewStreamableHTTPHandler runErr serveErr.
Let main := server.main NewSSEHandler NewStreamableHTTPHandler runErr serveErr.

Lemma serve_unknown (g : server.Globals) :
  server.transport g <> "stdio"%string ->
  server.transport g <> "sse"%string ->
  server.transport g <> "streamable-http"%string ->
  serve g = unknownTransportMessages (server.transport g).
Proof.
  intros H1 H2 H3. unfold serve, server.serve.
  apply String.eqb_neq in H1, H2, H3. rewrite H1, H2, H3. reflexivity.
Qed.

(** C7. With a transport name other than the three supported ones, the
    server writes two lines to standard error, the second naming the
    three supported transports, and exits with status 1; nothing is
    served: no stdio loop is run, no handler mounted, no port opened. *)
Theorem unknown_transport_exits (cl : flag.CommandLine) (env : os.Env) :
  let name := server.transport (server.parseConfig cl env) in
  name <> "stdio"%string -> name <> "sse"%string -> name <> "streamable-http"%string ->
  main cl env =
    [server.NewServer "echo-server" "1.0.0";
     server.AddTool "echo" "Echo back an alphanumeric string for deterministic testing";
     server.Stderr ("Unknown transport type: " +:+ name +:+ String "010"%char EmptyString);
     server.Stderr ("Supported transports: stdio, sse, streamable-http"
                    +:+ String "010"%char EmptyString);
     server.Exit 1]
  /\ existsb server.startsListener (main cl env) = false.
Proof.
  intros name H1 H2 H3.
  assert (Hmain : main cl env =
                  [server.NewServer "echo-server" "1.0.0";
                   server.AddTool "echo"
                     "Echo back an alphanumeric string for deterministic testing"]
                  ++ unknownTransportMessages name).
  { unfold main, server.main. fold serve. f_equal. apply serve_unknown; assumption. }
  rewrite Hmain. split; reflexivity.
Qed.

(** The three supported names do start a transport. *)
Lemma serve_supported (g : server.Globals) :
  server.transport g = "stdio"%string \/ server.transport g = "sse"%string
  \/ server.transport g = "streamable-http"%string ->
  existsb server.startsListener (serve g) = true.
Proof.
  unfold serve, server.serve. intros [-> | [-> | ->]]; cbn; reflexivity.
Qed.

End Transport.

Lemma unknown_transport_exits_witness :
  server.main (fun w _ => w) (fun w _ => w) None "closed"
    {| flag.strings := {[ "transport"%string := "websocket"%string ]};
       flag.ints := ∅; flag.durations := ∅; flag.positional := [] |}
    ∅
  = [server.NewServer "echo-server" "1.0.0";
     server.AddTool "echo" "Echo back an alphanumeric string for deterministic testing";
     server.Stderr ("Unknown transport type: websocket" +:+ String "010"%char EmptyString);
     server.Stderr ("Supported transports: stdio, sse, streamable-http"
                    +:+ String "010"%char EmptyString);
     server.Exit 1].
Proof.
  refine (proj1 (unknown_transport_exits (fun w _ => w) (fun w _ => w) None "closed"
                   {| flag.strings := {[ "transport"%string := "websocket"%string ]};
                      flag.ints := ∅; flag.durations := ∅; flag.positional := [] |} ∅
                   _ _ _));
    vm_compute; discriminate.
Defined.

(** ** Configuration *)

(** *** What [strconv.Atoi] accepts *)

Section AtoiFacts.
Import strconv.

Lemma isDigit_isDecimal c : isDigit c = true <-> isDecimal c.
Proof.
  unfold isDigit, isDecimal. rewrite andb_true_iff, !Nat.leb_le. reflexivity.
Qed.

Lemma fromDigits_app a b :
  fromDigits (a ++ b) = (fromDigits a * 10 ^ Z.of_nat (length b) + fromDigits b)%Z.
Proof.
  induction a as [|d a IH]; cbn [fromDigits app]; [lia|].
  rewrite IH, length_app, Nat2Z.inj_add, Z.pow_add_r by lia. lia.
Qed.

Lemma parseDigits_value l : forall acc,
  Forall isDecimal l ->
  parseDigits acc l = Some (acc * 10 ^ Z.of_nat (length l) + fromDigits l)%Z.
Proof.
  induction l as [|c l IH]; intros acc Hl; cbn [parseDigits fromDigits length].
  - f_equal. lia.
  - apply Forall_cons in Hl as [Hc Hl]. apply isDigit_isDecimal in Hc. rewrite Hc.
    rewrite IH by exact Hl. unfold digitVal. f_equal.
    rewrite Nat2Z.inj_succ, Z.pow_succ_r by lia. lia.
Qed.

Lemma parseDigits_digits l : forall acc n, parseDigits acc l = Some n -> Forall isDecimal l.
Proof.
  induction l as [|c l IH]; intros acc n; cbn [parseDigits]; [constructor|].
  destruct (isDigit c) eqn:Hc; [|discriminate]. intros H.
  constructor; [apply isDigit_isDecimal, Hc|eapply IH, H].
Qed.

Lemma isDecimal_not_sign c :
  isDecimal c -> Ascii.eqb c "-" = false /\ Ascii.eqb c "+" = false.
Proof.
  intros Hc. unfold isDecimal in Hc.
  split; apply Ascii.eqb_neq; intros ->;
    [change (nat_of_ascii "-") with 45 in Hc|change (nat_of_ascii "+") with 43 in Hc]; lia.
Qed.

Lemma Atoi_integerText s neg ds :
  integerText s neg ds ->
  Atoi s = if ((minInt <=? signedValue neg ds) && (signedValue neg ds <=? maxInt))%Z
           then Some (signedValue neg ds) else None.
Proof.
  intros (Hne & Hds & Hform). unfold Atoi, signedValue.
  assert (Hparse : parseDigits 0 ds = Some (fromDigits ds))
    by (rewrite parseDigits_value by exact Hds; f_equal; lia).
  destruct Hform as [[-> ->] | [[-> ->] | [-> ->]]].
  - destruct ds as [|c ds]; [contradiction|].
    destruct (isDecimal_not_sign c) as [-> ->]; [eapply Forall_inv, Hds|].
    rewrite Hparse. reflexivity.
  - cbn [Ascii.eqb Bool.eqb]. destruct ds as [|c ds]; [contradiction|].
    rewrite Hparse. reflexivity.
  - cbn [Ascii.eqb Bool.eqb]. destruct ds as [|c ds]; [contradiction|].
    rewrite Hparse. reflexivity.
Qed.

Lemma Atoi_not_integer s : (forall neg ds, ~ integerText s neg ds) -> Atoi s = None.
Proof.
  intros Hnot. unfold Atoi.
  destruct (list_ascii_of_string s) as [|c rest] eqn:Hs; [reflexivity|].
  assert (Hcase : forall neg ds, ds <> [] ->
            (c :: rest = ds /\ neg = false) \/ (c :: rest = "+"%char :: ds /\ neg = false)
            \/ (c :: rest = "-"%char :: ds /\ neg = true) ->
            parseDigits 0 ds = None).
  { intros neg ds Hne Hform. destruct (parseDigits 0 ds) as [n|] eqn:Hp; [|reflexivity].
    exfalso. apply (Hnot neg ds). split; [exact Hne|]. split; [|rewrite Hs; exact Hform].
    eapply parseDigits_digits, Hp. }
  destruct (Ascii.eqb_spec c "-") as [->|_].
  { destruct rest as [|d rest]; [reflexivity|].
    rewrite (Hcase true (d :: rest)); [reflexivity|discriminate|auto]. }
  destruct (Ascii.eqb_spec c "+") as [->|_].
  { destruct rest as [|d rest]; [reflexivity|].
    rewrite (Hcase false (d :: rest)); [reflexivity|discriminate|auto]. }
  rewrite (Hcase false (c :: rest)); [reflexivity|discriminate|auto].
Qed.

Lemma pretty_N_char_digit m :
  (m < 10)%N ->
  isDecimal (pretty_N_char m) /\ (Z.of_nat (nat_of_ascii (pretty_N_char m)) - 48 = Z.of_N m)%Z.
Proof.
  intros Hm.
  assert (Hcases : In m [0; 1; 2; 3; 4; 5; 6; 7; 8; 9]%N) by (cbn; lia).
  cbn [In] in Hcases.
  unfold isDecimal.
  repeat (destruct Hcases as [<-|Hcases];
          [split; [vm_compute; split; repeat constructor|vm_compute; reflexivity]|]).
  contradiction.
Qed.

Lemma pretty_N_go_digits x : forall s,
  exists ds, list_ascii_of_string (pretty_N_go x s) = ds ++ list_ascii_of_string s
             /\ Forall isDecimal ds /\ fromDigits ds = Z.of_N x
             /\ ((0 < x)%N -> ds <> []).
Proof.
  induction x as [x IH] using (well_founded_induction N.lt_wf_0). intros s.
  destruct (N.eq_dec x 0%N) as [->|Hx].
  - exists []. rewrite pretty_N_go_0. repeat split; [constructor|lia].
  - rewrite pretty_N_go_step by lia.
    destruct (IH (x `div` 10)%N ltac:(apply N.div_lt; lia)
                (String (pretty_N_char (x `mod` 10)) s)) as (ds & Heq & Hds & Hval & _).
    destruct (pretty_N_char_digit (x `mod` 10)%N ltac:(apply N.mod_lt; lia)) as [Hd Hv].
    exists (ds ++ [pretty_N_char (x `mod` 10)]). split; [|split; [|split]].
    + rewrite Heq. cbn [list_ascii_of_string]. rewrite <- app_assoc. reflexivity.
    + apply Forall_app. split; [exact Hds|]. constructor; [exact Hd|constructor].
    + rewrite fromDigits_app, Hval. cbn [fromDigits length]. rewrite Hv.
      pose proof (N.div_mod x 10 ltac:(lia)) as Hdm.
      rewrite N2Z.inj_div, N2Z.inj_mod. cbn -[Z.div Z.modulo Z.mul Z.add].
      pose proof (Z.div_mod (Z.of_N x) 10 ltac:(lia)). lia.
    + intros _. destruct ds; discriminate.
Qed.

Lemma Itoa_integerText v :
  exists ds, integerText (Itoa v) (v <? 0)%Z ds /\ signedValue (v <? 0)%Z ds = v.
Proof.
  unfold Itoa, pretty, pretty_Z. destruct v as [|p|p].
  - exists ["0"%char]. split; [|reflexivity].
    split; [discriminate|]. split; [|left; split; reflexivity].
    constructor; [unfold isDecimal; change (nat_of_ascii "0") with 48; lia|constructor].
  - destruct (pretty_N_go_digits (N.pos p) EmptyString) as (ds & Heq & Hds & Hval & Hne).
    exists ds. cbn [list_ascii_of_string] in Heq. rewrite app_nil_r in Heq.
    split; [|exact Hval].
    split; [apply Hne; lia|]. split; [exact Hds|]. left. split; [exact Heq|reflexivity].
  - destruct (pretty_N_go_digits (N.pos p) EmptyString) as (ds & Heq & Hds & Hval & Hne).
    exists ds. cbn [list_ascii_of_string] in Heq. rewrite app_nil_r in Heq.
    split; [|unfold signedValue; cbn; rewrite Hval; reflexivity].
    split; [apply Hne; lia|]. split; [exact Hds|]. right; right.
    split; [|reflexivity].
    change (list_ascii_of_string ("-" +:+ pretty p))
      with ("-"%char :: list_ascii_of_string (pretty_N_go (N.pos p) EmptyString)).
    rewrite Heq. reflexivity.
Qed.

Lemma Atoi_Itoa v : (minInt <= v <= maxInt)%Z -> Atoi (Itoa v) = Some v.
Proof.
  intros Hv. destruct (Itoa_integerText v) as (ds & Htext & Hval).
  rewrite (Atoi_integerText _ _ _ Htext), Hval.
  destruct (Z.leb_spec minInt v), (Z.leb_spec v maxInt); try lia. reflexivity.
Qed.

End AtoiFacts.

(** C9, as it stands, fails: the server does not read TRANSPORT, and the
    server before the auth gate does not read MCP_TRANSPORT; with only
    the other variable set, each keeps the default of the flag. *)
Lemma parseConfig_one_override :
  server.transport (server.parseConfig noFlags {[ "TRANSPORT"%string := "sse"%string ]})
  = "stdio"%string
  /\ legacy.transport
       (legacy.parseConfig noFlags {[ "MCP_TRANSPORT"%string := "sse"%string ]})
     = "stdio"%string.
Proof. split; vm_compute; reflexivity. Qed.

(** C9, amended.  After [parseConfig] the transport is the value of
    MCP_TRANSPORT in the server, and of TRANSPORT in the server before
    the auth gate, when that variable is set, and else the [--transport]
    flag, [stdio] by default; neither reads the variable of the other.
    The port is the [--port] flag, 8080 by default, unless PORT is set to
    the text of an integer, an optional sign and decimal digits, whose
    value fits an [int]: then it is that value, and in particular it is
    [v] when PORT is what [v] prints as.  The gate's header name and
    value are AUTH_HEADER and AUTH_VALUE, empty when unset. *)
Theorem parseConfig_spec (cl : flag.CommandLine) (env : os.Env) :
  let g := server.parseConfig cl env in
  let g0 := legacy.parseConfig cl env in
  let inRange v := (strconv.minInt <= v <= strconv.maxInt)%Z in
  server.transport g = default (transportFlag cl) (env !! "MCP_TRANSPORT"%string)
  /\ legacy.transport g0 = default (transportFlag cl) (env !! "TRANSPORT"%string)
  /\ (env !! "PORT"%string = None ->
      server.port g = portFlag cl /\ legacy.port g0 = portFlag cl)
  /\ (forall v, inRange v -> env !! "PORT"%string = Some (strconv.Itoa v) ->
      server.port g = v /\ legacy.port g0 = v)
  /\ (forall p neg ds, env !! "PORT"%string = Some p -> integerText p neg ds ->
      (inRange (signedValue neg ds) ->
       server.port g = signedValue neg ds /\ legacy.port g0 = signedValue neg ds)
      /\ (~ inRange (signedValue neg ds) ->
          server.port g = portFlag cl /\ legacy.port g0 = portFlag cl))
  /\ (forall p, env !! "PORT"%string = Some p -> (forall neg ds, ~ integerText p neg ds) ->
      server.port g = portFlag cl /\ legacy.port g0 = portFlag cl)
  /\ server.authHeader g = default EmptyString (env !! "AUTH_HEADER"%string)
  /\ server.authValue g = default EmptyString (env !! "AUTH_VALUE"%string).
Proof.
  intros g g0 inRange.
  assert (Hport : server.port g
                  = match env !! "PORT"%string with
                    | Some p => default (portFlag cl) (strconv.Atoi p)
                    | None => portFlag cl
                    end
                  /\ legacy.port g0 = server.port g).
  { subst g g0. unfold server.parseConfig, legacy.parseConfig, os.LookupEnv, flag.IntVar,
      portFlag. cbn [server.port legacy.port].
    destruct (env !! "PORT"%string) as [p|]; [|split; reflexivity].
    destruct (strconv.Atoi p); split; reflexivity. }
  destruct Hport as [Hport Hlegacy]. rewrite Hlegacy, Hport.
  split; [|split; [|split; [|split; [|split; [|split; [|split]]]]]].
  - subst g. unfold server.parseConfig, os.LookupEnv, flag.StringVar, transportFlag.
    cbn [server.transport]. destruct (env !! "MCP_TRANSPORT"%string); reflexivity.
  - subst g0. unfold legacy.parseConfig, os.LookupEnv, flag.StringVar, transportFlag.
    cbn [legacy.transport]. destruct (env !! "TRANSPORT"%string); reflexivity.
  - intros ->. split; reflexivity.
  - intros v Hv ->. rewrite (Atoi_Itoa v Hv). split; reflexivity.
  - intros p neg ds -> Htext. rewrite (Atoi_integerText p neg ds Htext). subst inRange.
    destruct (Z.leb_spec strconv.minInt (signedValue neg ds)),
      (Z.leb_spec (signedValue neg ds) strconv.maxInt); cbn [andb default];
      split; intros Hr; try (split; reflexivity); exfalso; lia.
  - intros p -> Hnot. rewrite (Atoi_not_integer p Hnot). split; reflexivity.
  - reflexivity.
  - reflexivity.
Qed.

(** PORT=9000 over [--port 8080]; PORT=http and PORT unset leave the
    flag; MCP_TRANSPORT overrides the flag in the server. *)
Lemma parseConfig_spec_witness :
  server.port (server.parseConfig noFlags {[ "PORT"%string := "9000"%string ]}) = 9000%Z
  /\ legacy.port (legacy.parseConfig noFlags {[ "PORT"%string := "9000"%string ]}) = 9000%Z
  /\ server.port (server.parseConfig sse9000 {[ "PORT"%string := "http"%string ]}) = 9000%Z
  /\ server.port (server.parseConfig sse9000 {[ "PORT"%string := "+81"%string ]}) = 81%Z
  /\ server.port (server.parseConfig sse9000 ∅) = 9000%Z
  /\ server.transport
       (server.parseConfig sse9000 {[ "MCP_TRANSPORT"%string := "streamable-http"%string ]})
     = "streamable-http"%string.
Proof.
  pose (is9000 := ({[ "PORT"%string := "9000"%string ]} : os.Env)).
  pose (isHttp := ({[ "PORT"%string := "http"%string ]} : os.Env)).
  pose (is81 := ({[ "PORT"%string := "+81"%string ]} : os.Env)).
  destruct (parseConfig_spec noFlags is9000) as (_ & _ & _ & Hprint & _).
  destruct (Hprint 9000%Z ltac:(vm_compute; split; discriminate)
              ltac:(vm_compute; reflexivity)) as [Hs Hl].
  destruct (parseConfig_spec sse9000 isHttp) as (_ & _ & _ & _ & _ & Hno & _).
  assert (Hhttp : forall neg ds, ~ integerText "http" neg ds).
  { intros neg ds (_ & Hds & [[<- _] | [[[=] _] | [[=] _]]]).
    apply Forall_inv in Hds. unfold isDecimal in Hds.
    change (nat_of_ascii "h") with 104 in Hds. lia. }
  destruct (Hno "http"%string ltac:(vm_compute; reflexivity) Hhttp) as [Hs' _].
  destruct (parseConfig_spec sse9000 is81) as (_ & _ & _ & _ & Hint & _).
  assert (H81 : integerText "+81" false ["8"; "1"]%char).
  { split; [discriminate|]. split; [|right; left; split; reflexivity].
    repeat constructor; vm_compute; repeat constructor. }
  destruct (Hint "+81"%string false ["8"; "1"]%char ltac:(vm_compute; reflexivity) H81)
    as [Hin _].
  destruct (Hin ltac:(vm_compute; split; discriminate)) as [Hs81 _].
  destruct (parseConfig_spec sse9000 ∅) as (_ & _ & Hunset & _).
  destruct (Hunset ltac:(vm_compute; reflexivity)) as [Hs0 _].
  destruct (parseConfig_spec sse9000
              ({[ "MCP_TRANSPORT"%string := "streamable-http"%string ]} : os.Env))
    as (Htransport & _).
  split; [exact Hs|]. split; [exact Hl|]. split; [exact Hs'|]. split; [exact Hs81|].
  split; [exact Hs0|]. rewrite Htransport. vm_compute. reflexivity.
Defined.

(** The server's override is MCP_TRANSPORT alone: TRANSPORT is not read. *)
Example parseConfig_tests :
  let cl := {| flag.strings := {[ "transport"%string := "sse"%string ]};
               flag.ints := {[ "port"%string := 9000%Z ]};
               flag.durations := ∅; flag.positional := [] |} in
  server.parseConfig cl ∅
  = {| server.transport := "sse"; server.port := 9000;
       server.authHeader := EmptyString; server.authValue := EmptyString |}
  /\ server.parseConfig cl
       {[ "MCP_TRANSPORT"%string := "streamable-http"%string; "PORT"%string := "8081"%string;
          "AUTH_HEADER"%string := "X-Auth-Token"%string;
          "AUTH_VALUE"%string := "secret123"%string ]}
     = {| server.transport := "streamable-http"; server.port := 8081;
          server.authHeader := "X-Auth-Token"; server.authValue := "secret123" |}
  /\ server.parseConfig cl
       {[ "TRANSPORT"%string := "stdio"%string; "PORT"%string := "http"%string ]}
     = {| server.transport := "sse"; server.port := 9000;
          server.authHeader := EmptyString; server.authValue := EmptyString |}
  /\ legacy.parseConfig cl {[ "TRANSPORT"%string := "stdio"%string ]}
     = {| legacy.transport := "stdio"; legacy.port := 9000 |}.
Proof. repeat split; vm_compute; reflexivity. Qed.

Example Atoi_tests :
  map strconv.Atoi
    ["8080"; "+12"; "-3"; EmptyString; "-"; "12a"; " 1"; "0x50";
     "9223372036854775807"; "9223372036854775808"]%string
  = [Some 8080%Z; Some 12%Z; Some (-3)%Z; None; None; None; None; None;
     Some 9223372036854775807%Z; None].
Proof. vm_compute. reflexivity. Qed.

(** ** Decoding JSON: the fuel is enough *)

Section JSONFuel.
Import json.

Lemma skipSpace_length l : length (skipSpace l) <= length l.
Proof.
  induction l as [|c l IH]; cbn [skipSpace length]; [lia|].
  destruct (isSpace c); cbn [length]; lia.
Qed.

Lemma eat_length c l rest : eat c l = Some rest -> S (length rest) = length l.
Proof.
  destruct l as [|x l]; cbn [eat]; [discriminate|].
  destruct (Ascii.eqb x c); [|discriminate]. intros [= <-]. reflexivity.
Qed.

Lemma eat_skipSpace_length c l rest :
  eat c (skipSpace l) = Some rest -> length rest < length l.
Proof.
  intros H. apply eat_length in H. pose proof (skipSpace_length l). lia.
Qed.

Lemma getu4_length l r rest : getu4 l = Some (r, rest) -> length rest < length l.
Proof.
  unfold getu4. intros H.
  repeat match type of H with
         | match ?x with _ => _ end = _ => destruct x; try discriminate
         end.
  injection H as _ <-. cbn [length]. lia.
Qed.

Lemma runeLen_pos l size : runeLen l = Some size -> 0 < size.
Proof.
  unfold runeLen. intros H.
  repeat match type of H with
         | match ?x with _ => _ end = _ => destruct x; try discriminate
         | (if ?b then _ else _) = _ => destruct b; try discriminate
         end.
  all: injection H as <-; lia.
Qed.

(** A string literal ends before the text does. *)
Lemma unquote_length fuel : forall l acc s rest,
  unquote fuel l acc = Some (s, rest) -> length rest < length l.
Proof.
  induction fuel as [|fuel IH]; intros l acc s rest H; [discriminate|].
  cbn [unquote] in H.
  destruct l as [|c l]; [discriminate|].
  destruct (Ascii.eqb c "034"); [injection H as _ <-; cbn; lia|].
  destruct (Ascii.eqb c "\").
  - destruct l as [|e l']; [discriminate|].
    destruct (Ascii.eqb e "u").
    + destruct (getu4 (c :: e :: l')) as [[rr rest0]|] eqn:Hu; [|discriminate].
      apply getu4_length in Hu.
      destruct (isSurrogate rr).
      * destruct (getu4 rest0) as [[rr1 rest1]|] eqn:Hu1.
        -- apply getu4_length in Hu1.
           destruct (_ =? _)%Z; apply IH in H; lia.
        -- apply IH in H. lia.
      * apply IH in H. lia.
    + destruct (escaped e); [|discriminate]. apply IH in H. cbn [length]. lia.
  - destruct (nat_of_ascii c <? 32); [discriminate|].
    destruct (nat_of_ascii c <? 128); [apply IH in H; cbn [length]; lia|].
    destruct (runeLen (c :: l)) as [size|] eqn:Hr.
    + apply runeLen_pos in Hr. apply IH in H. rewrite length_skipn in H. lia.
    + apply IH in H. cbn [length]. lia.
Qed.

(** Past the length of the text, more fuel changes nothing. *)
Lemma unquote_fuel n : forall m l acc,
  length l < n -> n <= m -> unquote n l acc = unquote m l acc.
Proof.
  induction n as [|n IH]; intros m l acc Hn Hm; [lia|].
  destruct m as [|m]; [lia|]. cbn [unquote].
  destruct l as [|c l]; [reflexivity|]. cbn [length] in Hn.
  destruct (Ascii.eqb c "034"); [reflexivity|].
  destruct (Ascii.eqb c "\").
  - destruct l as [|e l']; [reflexivity|].
    destruct (Ascii.eqb e "u").
    + destruct (getu4 (c :: e :: l')) as [[rr rest0]|] eqn:Hu; [|reflexivity].
      apply getu4_length in Hu. cbn [length] in Hu, Hn.
      destruct (isSurrogate rr).
      * destruct (getu4 rest0) as [[rr1 rest1]|] eqn:Hu1.
        -- apply getu4_length in Hu1.
           destruct (_ =? _)%Z; apply IH; lia.
        -- apply IH; lia.
      * apply IH; lia.
    + destruct (escaped e); [|reflexivity]. cbn [length] in Hn. apply IH; lia.
  - destruct (nat_of_ascii c <? 32); [reflexivity|].
    destruct (nat_of_ascii c <? 128); [apply IH; lia|].
    destruct (runeLen (c :: l)) as [size|] eqn:Hr.
    + apply runeLen_pos in Hr. apply IH; [|lia]. rewrite length_skipn. cbn [length]. lia.
    + apply IH; lia.
Qed.

Lemma spanDigits_length l : length (snd (spanDigits l)) <= length l.
Proof.
  induction l as [|c l IH]; cbn [spanDigits]; [cbn; lia|].
  destruct (strconv.isDigit c); [|cbn; lia].
  destruct (spanDigits l) as [ds tl]. cbn [snd length] in *. lia.
Qed.

Lemma someDigits_length l ds tl : someDigits l = Some (ds, tl) -> length tl <= length l.
Proof.
  unfold someDigits. pose proof (spanDigits_length l) as Hl.
  destruct (spanDigits l) as [[|d ds'] tl']; [discriminate|].
  intros [= _ <-]. exact Hl.
Qed.

Lemma intDigits_length l ds tl : intDigits l = Some (ds, tl) -> length tl <= length l.
Proof.
  unfold intDigits. pose proof (spanDigits_length l) as Hl.
  destruct (spanDigits l) as [[|d ds'] tl']; [discriminate|].
  destruct (_ && _); [discriminate|]. intros [= _ <-]. exact Hl.
Qed.

Lemma fraction_length l ds tl : fraction l = Some (ds, tl) -> length tl <= length l.
Proof.
  unfold fraction. destruct (eat "." l) as [rest|] eqn:He.
  - apply eat_length in He.
    destruct (someDigits rest) as [[ds' tl']|] eqn:Hd; [|discriminate].
    apply someDigits_length in Hd. intros [= _ <-]. lia.
  - intros [= _ <-]. lia.
Qed.

Lemma exponent_length l ds tl : exponent l = Some (ds, tl) -> length tl <= length l.
Proof.
  unfold exponent. destruct l as [|e rest]; [intros [= _ <-]; lia|].
  destruct (_ || _); [|intros [= _ <-]; lia].
  destruct (eat "+" rest) as [r|] eqn:Hp; [|destruct (eat "-" rest) as [r|] eqn:Hm].
  all: try apply eat_length in Hp; try apply eat_length in Hm.
  all: match goal with
       | |- match someDigits ?x with _ => _ end = _ -> _ =>
           destruct (someDigits x) as [[ds' tl']|] eqn:Hd; [|discriminate];
           apply someDigits_length in Hd; intros [= _ <-]; cbn [length]; lia
       end.
Qed.

Lemma scanNumber_length l s over rest :
  scanNumber l = Some (s, over, rest) -> length rest <= length l.
Proof.
  unfold scanNumber.
  assert (Hsign : forall l0, length l0 <= length l ->
            match intDigits l0 with
            | Some (int, l1) =>
                match fraction l1 with
                | Some (frac, l2) =>
                    match exponent l2 with
                    | Some (exp, l3) => length l3 <= length l
                    | None => True
                    end
                | None => True
                end
            | None => True
            end).
  { intros l0 Hl0.
    destruct (intDigits l0) as [[int l1]|] eqn:Hi; [|exact I]. apply intDigits_length in Hi.
    destruct (fraction l1) as [[frac l2]|] eqn:Hf; [|exact I]. apply fraction_length in Hf.
    destruct (exponent l2) as [[exp l3]|] eqn:He; [|exact I]. apply exponent_length in He.
    lia. }
  destruct (eat "-" l) as [l0|] eqn:He.
  - apply eat_length in He. specialize (Hsign l0 ltac:(lia)).
    destruct (intDigits l0) as [[int l1]|]; [|discriminate].
    destruct (fraction l1) as [[frac l2]|]; [|discriminate].
    destruct (exponent l2) as [[exp l3]|]; [|discriminate].
    intros [= _ _ <-]. exact Hsign.
  - specialize (Hsign l ltac:(lia)).
    destruct (intDigits l) as [[int l1]|]; [|discriminate].
    destruct (fraction l1) as [[frac l2]|]; [|discriminate].
    destruct (exponent l2) as [[exp l3]|]; [|discriminate].
    intros [= _ _ <-]. exact Hsign.
Qed.

Lemma stripPrefix_length pre : forall l rest,
  stripPrefix pre l = Some rest -> length rest <= length l.
Proof.
  induction pre as [|p pre IH]; intros l rest; cbn [stripPrefix].
  - intros [= <-]. lia.
  - destruct l as [|c l]; [discriminate|].
    destruct (Ascii.eqb p c); [|discriminate]. intros H. apply IH in H. cbn [length]. lia.
Qed.

Lemma literal_length name v bad l v' bad' rest :
  literal name v bad l = Some (v', bad', rest) -> length rest <= length l.
Proof.
  unfold literal. destruct (stripPrefix _ l) as [r|] eqn:Hs; [|discriminate].
  apply stripPrefix_length in Hs. intros [= _ _ <-]. exact Hs.
Qed.


(** Whatever is parsed, the text left is no longer than the text given. *)
Lemma parser_length n :
  (forall d bad l v bad' rest,
      value n d bad l = Some (v, bad', rest) -> length rest <= length l)
  /\ (forall d bad l acc fs bad' rest,
        members n d bad l acc = Some (fs, bad', rest) -> length rest <= length l)
  /\ (forall d bad l acc es bad' rest,
        elements n d bad l acc = Some (es, bad', rest) -> length rest <= length l).
Proof.
  induction n as [|n (IHv & IHm & IHe)]; [repeat split; discriminate|].
  split; [|split].
  - intros d bad l v bad' rest. cbn [value].
    pose proof (skipSpace_length l) as Hsp.
    destruct (skipSpace l) as [|c l0]; [discriminate|]. cbn [length] in Hsp.
    destruct (Ascii.eqb c "{").
    { destruct (_ <? _)%Z; [discriminate|].
      destruct (eat "}" (skipSpace l0)) as [r|] eqn:He.
      - apply eat_skipSpace_length in He. intros [= _ _ <-]. lia.
      - destruct (members n (d + 1) bad l0 ∅) as [[[fs bad0] r]|] eqn:Hm; [|discriminate].
        apply IHm in Hm. intros [= _ _ <-]. lia. }
    destruct (Ascii.eqb c "[").
    { destruct (_ <? _)%Z; [discriminate|].
      destruct (eat "]" (skipSpace l0)) as [r|] eqn:He.
      - apply eat_skipSpace_length in He. intros [= _ _ <-]. lia.
      - destruct (elements n (d + 1) bad l0 []) as [[[es bad0] r]|] eqn:Hm; [|discriminate].
        apply IHe in Hm. intros [= _ _ <-]. lia. }
    destruct (Ascii.eqb c "034").
    { destruct (unquote (S (length l0)) l0 []) as [[s r]|] eqn:Hu; [|discriminate].
      apply unquote_length in Hu. intros [= _ _ <-]. lia. }
    destruct (Ascii.eqb c "t"); [intros H; apply literal_length in H; lia|].
    destruct (Ascii.eqb c "f"); [intros H; apply literal_length in H; lia|].
    destruct (Ascii.eqb c "n"); [intros H; apply literal_length in H; lia|].
    destruct (scanNumber (c :: l0)) as [[[lit over] r]|] eqn:Hn; [|discriminate].
    apply scanNumber_length in Hn. cbn [length] in Hn. intros [= _ _ <-]. lia.
  - intros d bad l acc fs bad' rest. cbn [members].
    destruct (eat "034" (skipSpace l)) as [l0|] eqn:H0; [|discriminate].
    apply eat_skipSpace_length in H0.
    destruct (unquote (S (length l0)) l0 []) as [[key l1]|] eqn:Hu; [|discriminate].
    apply unquote_length in Hu.
    destruct (eat ":" (skipSpace l1)) as [l2|] eqn:H2; [|discriminate].
    apply eat_skipSpace_length in H2.
    destruct (value n d bad l2) as [[[v bad0] l3]|] eqn:Hv; [|discriminate].
    apply IHv in Hv.
    destruct (eat "," (skipSpace l3)) as [l4|] eqn:H4.
    + apply eat_skipSpace_length in H4. intros H. apply IHm in H. lia.
    + destruct (eat "}" (skipSpace l3)) as [l4|] eqn:H5; [|discriminate].
      apply eat_skipSpace_length in H5. intros [= _ _ <-]. lia.
  - intros d bad l acc es bad' rest. cbn [elements].
    destruct (value n d bad l) as [[[v bad0] l3]|] eqn:Hv; [|discriminate].
    apply IHv in Hv.
    destruct (eat "," (skipSpace l3)) as [l4|] eqn:H4.
    + apply eat_skipSpace_length in H4. intros H. apply IHe in H. lia.
    + destruct (eat "]" (skipSpace l3)) as [l4|] eqn:H5; [|discriminate].
      apply eat_skipSpace_length in H5. intros [= _ _ <-]. lia.
Qed.

(** With fuel for twice the length of the text, more fuel changes nothing:
    a value needs one unit more, the elements of an array two. *)
Lemma parser_fuel n : forall m, n <= m ->
  (forall d bad l, 2 * length l + 1 <= n -> value n d bad l = value m d bad l)
  /\ (forall d bad l acc, 2 * length l <= n -> members n d bad l acc = members m d bad l acc)
  /\ (forall d bad l acc,
        2 * length l + 2 <= n -> elements n d bad l acc = elements m d bad l acc).
Proof.
  induction n as [|n IH]; intros m Hm.
  - split; [|split]; intros; try lia.
    destruct l; [|cbn [length] in *; lia]. destruct m; reflexivity.
  - destruct m as [|m]; [lia|].
    destruct (IH m ltac:(lia)) as (IHv & IHm & IHe).
    destruct (parser_length n) as (Lv & Lm & Le).
    split; [|split].
    + intros d bad l Hn. cbn [value].
      pose proof (skipSpace_length l) as Hsp.
      destruct (skipSpace l) as [|c l0]; [reflexivity|]. cbn [length] in Hsp.
      destruct (Ascii.eqb c "{").
      { destruct (_ <? _)%Z; [reflexivity|].
        destruct (eat "}" (skipSpace l0)); [reflexivity|].
        rewrite (IHm (d + 1)%Z bad l0 ∅) by lia. reflexivity. }
      destruct (Ascii.eqb c "[").
      { destruct (_ <? _)%Z; [reflexivity|].
        destruct (eat "]" (skipSpace l0)); [reflexivity|].
        rewrite (IHe (d + 1)%Z bad l0 []) by lia. reflexivity. }
      reflexivity.
    + intros d bad l acc Hn. cbn [members].
      destruct (eat "034" (skipSpace l)) as [l0|] eqn:H0; [|reflexivity].
      apply eat_skipSpace_length in H0.
      destruct (unquote (S (length l0)) l0 []) as [[key l1]|] eqn:Hu; [|reflexivity].
      apply unquote_length in Hu.
      destruct (eat ":" (skipSpace l1)) as [l2|] eqn:H2; [|reflexivity].
      apply eat_skipSpace_length in H2.
      rewrite <- (IHv d bad l2) by lia.
      destruct (value n d bad l2) as [[[v bad0] l3]|] eqn:Hv; [|reflexivity].
      apply Lv in Hv.
      destruct (eat "," (skipSpace l3)) as [l4|] eqn:H4; [|reflexivity].
      apply eat_skipSpace_length in H4. apply IHm. lia.
    + intros d bad l acc Hn. cbn [elements].
      rewrite <- (IHv d bad l) by lia.
      destruct (value n d bad l) as [[[v bad0] l3]|] eqn:Hv; [|reflexivity].
      apply Lv in Hv.
      destruct (eat "," (skipSpace l3)) as [l4|] eqn:H4; [|reflexivity].
      apply eat_skipSpace_length in H4. apply IHe. lia.
Qed.

(** [decode] is the parser with fuel to spare: any larger amount gives the
    same document or the same failure. *)
Lemma decode_fuel (data : string) (m : nat) :
  let l := list_ascii_of_string data in
  2 * length l + 2 <= m -> value m 0 None l = value (2 * length l + 2) 0 None l.
Proof.
  intros l Hm. symmetry.
  apply (parser_fuel (2 * length l + 2) m Hm). lia.
Qed.

End JSONFuel.

(** ** The client: a malformed argument blob *)

Section CallToolArguments.

Import client.

Variable urlParse : string -> option error.

(** [Connect] by cases: no transport and an error, a panic of the SSE
    constructor, or one connection attempt. *)
Lemma Connect_cases (peer : Peer) (c : Config) :
  (exists e, Connect urlParse peer c = ([], Returns (Some e)))
  \/ (exists v, Connect urlParse peer c = ([], Panics v))
  \/ (exists t, Connect urlParse peer c = ([SessionConnect t], Returns (connect peer t))).
Proof.
  unfold Connect, dial, connectSSE, connectStdio, connectStreamableHTTP.
  destruct (String.eqb (Transport c) "stdio").
  { destruct (String.eqb (Command c) EmptyString); eauto. }
  destruct (String.eqb (Transport c) "sse").
  { destruct (urlParse _); eauto. }
  destruct (String.eqb (Transport c) "streamable-http"); eauto.
Qed.

Lemma Connect_events peer config :
  forall e, In e (fst (Connect urlParse peer config)) ->
            isCallTool e = false /\ isFatal e = false /\ isPanic e = false.
Proof.
  intros e.
  destruct (Connect_cases peer config) as [(x & ->) | [(x & ->) | (x & ->)]];
    cbn; intros Hin; intuition (subst; auto).
Qed.

End CallToolArguments.

(** C8, as stated, fails: with a malformed blob and a server that is up,
    the client connects and completes the handshake before it parses the
    blob; the session has been opened when the fatal error is raised. *)
Lemma malformed_args_connect_first :
  callToolMalformed json.Unmarshal malformedCall ∅
  /\ client.main parseExample json.Unmarshal malformedCall ∅ livePeer
     = [client.SessionConnect (client.SSEClientTransport "http://localhost:8080/sse");
        client.LogFatal (client.FailedToParseToolArguments json.SyntaxError)]
  /\ ~ networkFree (client.main parseExample json.Unmarshal malformedCall ∅ livePeer).
Proof.
  assert (Hmain : client.main parseExample json.Unmarshal malformedCall ∅ livePeer
                  = [client.SessionConnect (client.SSEClientTransport "http://localhost:8080/sse");
                     client.LogFatal (client.FailedToParseToolArguments json.SyntaxError)])
    by (vm_compute; reflexivity).
  split; [|split].
  - split; [vm_compute; reflexivity|].
    exists json.SyntaxError. vm_compute. reflexivity.
  - exact Hmain.
  - rewrite Hmain. intros Hfree. apply Forall_inv in Hfree. discriminate Hfree.
Qed.

(** C8, amended.  A [call-tool] invocation with a blob that
    [json.Unmarshal] rejects never issues the tool call, and it ends
    right after [Connect]: the trace is that of [Connect] followed by one
    event, which is the panic of the SSE transport if its address does
    not parse, else the fatal connection failure if there is one, else
    the fatal error of the missing tool name if it is empty, else the
    fatal parse error.  This holds of whatever the address parser and the
    decoder do. *)
Theorem malformed_args_fatal_before_tool_call
    (urlParse : string -> option error)
    (Unmarshal : string -> json.Error + option (gmap string any))
    (cl : flag.CommandLine) (env : os.Env) (peer : client.Peer) (err : json.Error) :
  actionOf cl env = "call-tool"%string ->
  Unmarshal (toolArgsOf cl env) = inl err ->
  let connected := client.Connect urlParse peer (fst (client.parseConfig cl env)) in
  client.main urlParse Unmarshal cl env peer
  = fst connected
    ++ [match snd connected with
        | client.Panics value => client.Panic value
        | client.Returns (Some e) => client.LogFatal (client.FailedToConnect e)
        | client.Returns None =>
            client.LogFatal
              (if String.eqb (toolNameOf cl env) EmptyString
               then client.ToolNameRequired
               else client.FailedToParseToolArguments err)
        end]
  /\ existsb isCallTool (client.main urlParse Unmarshal cl env peer) = false.
Proof.
  intros Haction Hargs connected. unfold actionOf, toolArgsOf, toolNameOf in *.
  assert (Hmain : client.main urlParse Unmarshal cl env peer
                  = fst connected
                    ++ [match snd connected with
                        | client.Panics value => client.Panic value
                        | client.Returns (Some e) => client.LogFatal (client.FailedToConnect e)
                        | client.Returns None =>
                            client.LogFatal
                              (if String.eqb
                                    (os.Getenv (snd (client.parseConfig cl env))
                                       "CLIENT_TOOL_NAME") EmptyString
                               then client.ToolNameRequired
                               else client.FailedToParseToolArguments err)
                        end]).
  { unfold client.main. subst connected.
    destruct (client.parseConfig cl env) as [config env'] eqn:Hcfg.
    cbn [fst snd] in *.
    destruct (snd (client.Connect urlParse peer config)) as [[e|]|value]; [reflexivity| |reflexivity].
    rewrite Haction, Hargs. cbn [String.eqb Ascii.eqb Bool.eqb].
    destruct (String.eqb (os.Getenv env' "CLIENT_TOOL_NAME") EmptyString); reflexivity. }
  split; [exact Hmain|].
  rewrite Hmain, existsb_app.
  assert (Hlast : forall e, existsb isCallTool [e] = isCallTool e)
    by (intros e; cbn; apply orb_false_r).
  rewrite Hlast.
  replace (isCallTool _) with false
    by (destruct (snd connected) as [[e|]|value]; reflexivity).
  rewrite orb_false_r.
  apply not_true_is_false. intros Hex.
  apply existsb_exists in Hex as (e & Hin & He).
  apply Connect_events in Hin as [Hcall _]. congruence.
Qed.

(** The blob [not json] against a server that is up, and the same blob
    when the address of the server does not parse. *)
Lemma malformed_args_fatal_before_tool_call_witness :
  client.main parseExample json.Unmarshal malformedCall ∅ livePeer
  = [client.SessionConnect (client.SSEClientTransport "http://localhost:8080/sse");
     client.LogFatal (client.FailedToParseToolArguments json.SyntaxError)]
  /\ existsb isCallTool (client.main parseExample json.Unmarshal malformedCall ∅ livePeer)
     = false
  /\ existsb isFatal
       (client.main parseExample json.Unmarshal malformedCall {[ "PORT"%string := "-3"%string ]}
          livePeer) = false.
Proof.
  pose (down := ({[ "PORT"%string := "-3"%string ]} : os.Env)).
  assert (Haction : actionOf malformedCall (∅ : os.Env) = "call-tool"%string)
    by (vm_compute; reflexivity).
  assert (Hargs : json.Unmarshal (toolArgsOf malformedCall (∅ : os.Env)) = inl json.SyntaxError)
    by (vm_compute; reflexivity).
  assert (Haction' : actionOf malformedCall down = "call-tool"%string)
    by (vm_compute; reflexivity).
  assert (Hargs' : json.Unmarshal (toolArgsOf malformedCall down) = inl json.SyntaxError)
    by (vm_compute; reflexivity).
  destruct (malformed_args_fatal_before_tool_call parseExample json.Unmarshal
              malformedCall ∅ livePeer json.SyntaxError Haction Hargs)
    as [Hup Hnone].
  destruct (malformed_args_fatal_before_tool_call parseExample json.Unmarshal
              malformedCall down livePeer json.SyntaxError Haction' Hargs')
    as [Hdown _].
  split; [rewrite Hup; vm_compute; reflexivity|].
  split; [exact Hnone|].
  fold down. rewrite Hdown. vm_compute. reflexivity.
Defined.

(** * Further properties of the server *)

Section TransportModes.

Variables NewSSEHandler NewStreamableHTTPHandler : http.Handler.
Variable runErr : option error.
Variable serveErr : error.

Let serve := server.serve NewSSEHandler NewStreamableHTTPHandler runErr serveErr.
Let serve0 := legacy.serve NewSSEHandler NewStreamableHTTPHandler runErr serveErr.

(** The four branches of the switch, by the name that selects them. *)
Lemma serve_cases (g : server.Globals) :
  (server.transport g = "stdio"%string
   /\ serve g = [server.Log "Starting MCP server with stdio transport"; server.Run]
                ++ match runErr with
                   | Some err => [server.Log ("Failed to run server:" +:+ err); server.Exit 1]
                   | None => []
                   end)
  \/ (server.transport g = "sse"%string
      /\ exists l1 l2 l3,
          serve g = [server.Log l1; server.Log l2; server.Log l3;
                     server.Handle "/sse" (server.authWrapper g NewSSEHandler);
                     server.ListenAndServe (server.httpServer g);
                     server.Log serveErr; server.Exit 1])
  \/ (server.transport g = "streamable-http"%string
      /\ exists l1,
          serve g = [server.Log l1;
                     server.Handle "/mcp" (server.authWrapper g NewStreamableHTTPHandler);
                     server.ListenAndServe (server.httpServer g);
                     server.Log serveErr; server.Exit 1])
  \/ (server.transport g <> "stdio"%string /\ server.transport g <> "sse"%string
      /\ server.transport g <> "streamable-http"%string
      /\ serve g = unknownTransportMessages (server.transport g)).
Proof.
  unfold serve, server.serve.
  destruct (String.eqb_spec (server.transport g) "stdio") as [H1|H1]; [left; auto|].
  destruct (String.eqb_spec (server.transport g) "sse") as [H2|H2];
    [right; left; split; [exact H2|]; eauto|].
  destruct (String.eqb_spec (server.transport g) "streamable-http") as [H3|H3];
    [right; right; left; split; [exact H3|]; eauto|].
  right; right; right. auto.
Qed.

(** X1. The server starts the one mode its transport names and no other:
    the stdio loop runs exactly for [stdio], a handler is mounted at [/sse]
    exactly for [sse] and at [/mcp] exactly for [streamable-http], a port
    is opened exactly for these two, and never more than one handler is
    mounted. *)
Theorem serve_one_mode (g : server.Globals) :
  existsb isRun (serve g) = String.eqb (server.transport g) "stdio"
  /\ existsb (mountsAt "/sse") (serve g) = String.eqb (server.transport g) "sse"
  /\ existsb (mountsAt "/mcp") (serve g) = String.eqb (server.transport g) "streamable-http"
  /\ existsb isListen (serve g)
     = String.eqb (server.transport g) "sse"
       || String.eqb (server.transport g) "streamable-http"
  /\ length (List.filter isHandle (serve g)) <= 1.
Proof.
  destruct (serve_cases g) as [[Ht ->] | [(Ht & l1 & l2 & l3 & ->) | [(Ht & l1 & ->)
                              | (H1 & H2 & H3 & ->)]]].
  - rewrite Ht. destruct runErr; cbn; repeat split; lia.
  - rewrite Ht. cbn. repeat split; lia.
  - rewrite Ht. cbn. repeat split; lia.
  - apply String.eqb_neq in H1, H2, H3. rewrite H1, H2, H3. cbn. repeat split; lia.
Qed.

(** X2. The exit status.  The server leaves with status 1 in every case
    but one: on [stdio], when the loop ends without an error, [main]
    returns and no exit is forced.  A forced exit is the last thing the
    server does, and the HTTP modes always end in one. *)
Theorem serve_exit (g : server.Globals) :
  (server.transport g = "stdio"%string /\ runErr = None
   /\ existsb isExit (serve g) = false)
  \/ ((server.transport g <> "stdio"%string \/ runErr <> None)
      /\ exists before, serve g = before ++ [server.Exit 1]
                        /\ existsb isExit before = false).
Proof.
  destruct (serve_cases g) as [[Ht Hs] | [(Ht & l1 & l2 & l3 & Hs) | [(Ht & l1 & Hs)
                              | (H1 & H2 & H3 & Hs)]]]; rewrite Hs.
  - destruct runErr as [err|].
    + right. split; [right; discriminate|].
      exists [server.Log "Starting MCP server with stdio transport"; server.Run;
              server.Log ("Failed to run server:" +:+ err)]. split; reflexivity.
    + left. repeat split; assumption.
  - right. split; [left; rewrite Ht; discriminate|].
    eexists [_; _; _; _; _; _]. split; reflexivity.
  - right. split; [left; rewrite Ht; discriminate|].
    eexists [_; _; _; _]. split; reflexivity.
  - right. split; [left; exact H1|].
    eexists [_; _]. split; reflexivity.
Qed.

(** X3. The transport switch with and without the gate.  Started on the
    same transport and port and with the same handlers from the SDK, the
    switch of the server and the switch of the revision before the gate
    produce the same events, handlers left out, and each handler the
    server mounts is the gate around the handler the earlier revision
    mounts at the same path.  (This is about the switch alone: how each
    revision reads its configuration and what its echo handler returns
    are the subject of C9 and X8.) *)
Theorem serve_gate_only (g : server.Globals) :
  map unmounted (serve g) = map unmounted (serve0 (withoutGate g))
  /\ (forall pattern h, In (server.Handle pattern h) (serve g) ->
        exists next, h = server.authWrapper g next
                     /\ In (server.Handle pattern next) (serve0 (withoutGate g))).
Proof.
  unfold serve, serve0, server.serve, legacy.serve, withoutGate. cbn [legacy.transport legacy.port].
  destruct (String.eqb (server.transport g) "stdio").
  { split; [reflexivity|]. intros pattern h Hin.
    apply in_app_or in Hin as [Hin|Hin];
      [cbn in Hin; intuition discriminate|destruct runErr; cbn in Hin; intuition discriminate]. }
  destruct (String.eqb (server.transport g) "sse").
  { split; [reflexivity|]. intros pattern h Hin. cbn in Hin.
    repeat (destruct Hin as [Heq|Hin]; [try discriminate Heq|]); [|destruct Hin].
    injection Heq as <- <-. eexists. split; [reflexivity|]. cbn. auto 10. }
  destruct (String.eqb (server.transport g) "streamable-http").
  { split; [reflexivity|]. intros pattern h Hin. cbn in Hin.
    repeat (destruct Hin as [Heq|Hin]; [try discriminate Heq|]); [|destruct Hin].
    injection Heq as <- <-. eexists. split; [reflexivity|]. cbn. auto 10. }
  split; [reflexivity|]. intros pattern h Hin. cbn in Hin. intuition discriminate.
Qed.

End TransportModes.

Lemma serve_gate_only_witness :
  exists next,
    server.authWrapper testGate (fun w _ => http.Write w "sse")
    = server.authWrapper testGate next
    /\ In (server.Handle "/sse" next)
         (legacy.serve (fun w _ => http.Write w "sse") (fun w _ => w) None "closed"
            (withoutGate testGate)).
Proof.
  apply (proj2 (serve_gate_only (fun w _ => http.Write w "sse") (fun w _ => w) None "closed"
                  testGate) "/sse"%string).
  cbn. auto 10.
Defined.


(** ** The gate and the configuration *)

(** X4. The gate is off unless AUTH_HEADER is set to a non-empty name:
    without it the server hands every request to the wrapped handler,
    whatever AUTH_VALUE and the headers of the request are. *)
Theorem gate_off_by_default (cl : flag.CommandLine) (env : os.Env)
    (next : http.Handler) (w : http.ResponseWriter) (r : http.Request) :
  env !! "AUTH_HEADER"%string = None \/ env !! "AUTH_HEADER"%string = Some EmptyString ->
  server.authWrapper (server.parseConfig cl env) next w r = next w r.
Proof.
  intros Hoff. unfold server.authWrapper.
  rewrite checkAuth_disabled; [reflexivity|].
  unfold server.parseConfig, os.Getenv. cbn [server.authHeader].
  destruct Hoff as [-> | ->]; reflexivity.
Qed.

Lemma gate_off_by_default_witness :
  server.authWrapper
    (server.parseConfig
       {| flag.strings := ∅; flag.ints := ∅; flag.durations := ∅; flag.positional := [] |}
       {[ "AUTH_VALUE"%string := "secret123"%string ]})
    (fun w _ => http.Write w "ok") freshResponse (requestWith ∅)
  = http.Write freshResponse "ok".
Proof.
  apply (gate_off_by_default
           {| flag.strings := ∅; flag.ints := ∅; flag.durations := ∅; flag.positional := [] |}
           {[ "AUTH_VALUE"%string := "secret123"%string ]}
           (fun w _ => http.Write w "ok") freshResponse (requestWith ∅)).
  left. vm_compute. reflexivity.
Defined.

(** X5. When the request carries the named header, only its first value
    counts: the request passes exactly when that value is the expected
    one, whatever values follow it. *)
Theorem checkAuth_first_value (g : server.Globals) (r : http.Request)
    (v : string) (vs : list string) :
  server.authHeader g <> EmptyString ->
  http.RequestHeader r !! http.CanonicalMIMEHeaderKey (server.authHeader g) = Some (v :: vs) ->
  (server.checkAuth g r = None <-> v = server.authValue g).
Proof.
  intros Hne Hval. rewrite (checkAuth_enabled g r Hne).
  unfold http.Get. rewrite Hval.
  destruct (String.eqb_spec v (server.authValue g)); split; congruence.
Qed.

Lemma checkAuth_first_value_witness :
  server.checkAuth testGate
    (requestWith {[ "X-Auth-Token"%string := ["wrongvalue"; "secret123"]%string ]})
  <> None.
Proof.
  intros Hpass.
  apply (checkAuth_first_value testGate
           (requestWith {[ "X-Auth-Token"%string := ["wrongvalue"; "secret123"]%string ]})
           "wrongvalue" ["secret123"%string]) in Hpass.
  - discriminate Hpass.
  - vm_compute. discriminate.
  - vm_compute. reflexivity.
Defined.

(** X6. The header name is matched without regard to case: two gates whose
    names have the same canonical form, and the same expected value, give
    the same verdict on every request. *)
Theorem checkAuth_name_case (g : server.Globals) (name : string) (r : http.Request) :
  server.authHeader g <> EmptyString -> name <> EmptyString ->
  http.CanonicalMIMEHeaderKey name = http.CanonicalMIMEHeaderKey (server.authHeader g) ->
  server.checkAuth (withHeader g name) r = server.checkAuth g r.
Proof.
  intros Hne Hname Hcanon.
  rewrite (checkAuth_enabled g r Hne).
  rewrite (checkAuth_enabled (withHeader g name) r) by exact Hname.
  unfold http.Get. cbn [withHeader server.authHeader server.authValue].
  rewrite Hcanon. reflexivity.
Qed.

Lemma checkAuth_name_case_witness :
  server.checkAuth (withHeader testGate "x-AUTH-token")
    (requestWith (http.Set_ ∅ "X-Auth-Token" "secret123"))
  = server.checkAuth testGate (requestWith (http.Set_ ∅ "X-Auth-Token" "secret123")).
Proof.
  apply checkAuth_name_case.
  - vm_compute. discriminate.
  - discriminate.
  - vm_compute. reflexivity.
Defined.

(** ** The echo handler, in both revisions *)

Lemma valid_nonempty (s : string) :
  server.validateAlphanumeric s = true -> s <> EmptyString.
Proof.
  unfold server.validateAlphanumeric, regexp.MatchString.
  rewrite search_alphanumericRegex. intros [Hne _] ->. apply Hne. reflexivity.
Qed.

(** X7. The handler never returns a Go error, and its two other results
    exclude each other: either the result is nil and the response carries
    the input, which is not empty, or the result is an error result and the
    response is empty.  So the output alone tells a success from a
    failure. *)
Theorem echoHandler_result_or_response {Ctx : Type} (ctx : Ctx)
    (req : option mcp.CallToolRequest) (params : server.EchoRequest) :
  let '(result, response, err) := server.echoHandler ctx req params in
  err = None
  /\ ((result = None /\ server.Output response = server.Input params
       /\ server.Output response <> EmptyString)
      \/ (exists res, result = Some res /\ mcp.IsError res = true
                      /\ server.Output response = EmptyString)).
Proof.
  destruct (server.validateAlphanumeric (server.Input params)) eqn:Hv.
  - rewrite (echoHandler_valid ctx req params Hv). split; [reflexivity|]. left.
    cbn. repeat split. apply valid_nonempty, Hv.
  - unfold server.echoHandler. rewrite Hv. cbn. split; [reflexivity|]. right.
    eexists. repeat split.
Qed.

(** X8. The handler before the change of API returns exactly one of a
    result and an error, and says the same as the later one: its result
    holds as only content the text the later handler gives as output, and
    its error is the text of the later handler's error result. *)
Theorem legacy_echoHandler_agrees {Ctx Session : Type} (ctx : Ctx) (ss : Session)
    (req : option mcp.CallToolRequest) (params : server.EchoRequest) :
  let '(result0, err0) := legacy.echoHandler ctx ss params in
  let '(result, response, _) := server.echoHandler ctx req params in
  (result0 = None <-> err0 <> None)
  /\ (forall res0, result0 = Some res0 ->
        result = None
        /\ legacy.Content res0 = [mcp.ContentText {| mcp.Text := server.Output response |}]
        /\ server.Output response = server.Input params)
  /\ (forall e, err0 = Some e ->
        exists res, result = Some res /\ mcp.IsError res = true
                    /\ mcp.ResultContent res = [mcp.ContentText {| mcp.Text := e |}]).
Proof.
  unfold legacy.echoHandler, server.echoHandler.
  destruct (server.validateAlphanumeric (server.Input params)); cbn.
  - split; [split; [discriminate|intros H; contradiction H; reflexivity]|].
    split; [|discriminate]. intros res0 [= <-]. auto.
  - split; [split; [discriminate|reflexivity]|].
    split; [discriminate|]. intros e [= <-]. eexists. repeat split.
Qed.

Lemma legacy_echoHandler_agrees_witness :
  exists res,
    fst (fst (server.echoHandler tt None {| server.Input := "test 123" |})) = Some res
    /\ mcp.IsError res = true
    /\ mcp.ResultContent res
       = [mcp.ContentText {| mcp.Text := "input must be alphanumeric only" |}].
Proof.
  pose proof (legacy_echoHandler_agrees tt tt None {| server.Input := "test 123" |}) as H.
  destruct (legacy.echoHandler tt tt {| server.Input := "test 123" |}) as [result0 err0] eqn:H0.
  destruct (server.echoHandler tt None {| server.Input := "test 123" |})
    as [[result response] err].
  destruct H as (_ & _ & H). apply H.
  vm_compute in H0. injection H0 as _ <-. reflexivity.
Defined.

(** ** The validator under concatenation *)

Lemma list_ascii_of_string_app (s1 s2 : string) :
  list_ascii_of_string (s1 +:+ s2) = list_ascii_of_string s1 ++ list_ascii_of_string s2.
Proof. induction s1 as [|c s1 IH]; [reflexivity|]. simpl. f_equal. exact IH. Qed.

Lemma validateAlphanumeric_chars (s : string) :
  server.validateAlphanumeric s = true <->
  s <> EmptyString /\ forallb (regexp.inClass alnumClass) (list_ascii_of_string s) = true.
Proof.
  unfold server.validateAlphanumeric, regexp.MatchString.
  rewrite search_alphanumericRegex.
  assert (Hnil : list_ascii_of_string s <> [] <-> s <> EmptyString)
    by (destruct s; cbn; split; congruence).
  rewrite Hnil. reflexivity.
Qed.

(** X9. The validator and concatenation: a concatenation is accepted
    exactly when each part is accepted or empty and not both are empty.  So
    accepted strings can be joined and cut freely, and a string with a
    rejected non-empty part is rejected. *)
Theorem validateAlphanumeric_app (s1 s2 : string) :
  server.validateAlphanumeric (s1 +:+ s2) = true <->
  (s1 = EmptyString \/ server.validateAlphanumeric s1 = true)
  /\ (s2 = EmptyString \/ server.validateAlphanumeric s2 = true)
  /\ (s1 <> EmptyString \/ s2 <> EmptyString).
Proof.
  rewrite !validateAlphanumeric_chars, list_ascii_of_string_app, forallb_app, andb_true_iff.
  assert (Happ : s1 +:+ s2 = EmptyString <-> s1 = EmptyString /\ s2 = EmptyString)
    by (destruct s1, s2; simpl; (split; [intros H|intros [H H']]); try discriminate; auto).
  assert (Hempty : forall s, s = EmptyString ->
            forallb (regexp.inClass alnumClass) (list_ascii_of_string s) = true)
    by (intros s ->; reflexivity).
  destruct (decide (s1 = EmptyString)) as [H1|H1], (decide (s2 = EmptyString)) as [H2|H2];
    pose proof (Hempty s1) as He1; pose proof (Hempty s2) as He2; clear Hempty; intuition.
Qed.

Lemma validateAlphanumeric_app_witness :
  server.validateAlphanumeric ("load" +:+ "001") = true.
Proof.
  apply (proj2 (validateAlphanumeric_app "load" "001")).
  repeat split; try (right; vm_compute; reflexivity). left. discriminate.
Defined.

(** * Further properties of the client *)

Section ClientMethods.

Import client.

Variable peer : Peer.

Lemma existsb_map_false {A} (P : Event -> bool) (f : A -> Event) (l : list A) :
  (forall x, P (f x) = false) -> existsb P (map f l) = false.
Proof. intros Hf. induction l as [|x l IH]; cbn; [reflexivity|]. rewrite Hf, IH. reflexivity. Qed.

Lemma ListTools_existsb P :
  silent P -> existsb P (fst (ListTools peer)) = P SessionListTools.
Proof.
  intros [Hs _]. unfold ListTools. destruct (listTools peer) as [err|tools]; cbn.
  - apply orb_false_r.
  - rewrite Hs, existsb_map_false by (intros; apply Hs). apply orb_false_r.
Qed.

Lemma ListResources_existsb P :
  silent P -> existsb P (fst (ListResources peer)) = P SessionListResources.
Proof.
  intros [Hs _]. unfold ListResources. destruct (listResources peer) as [err|rs]; cbn.
  - apply orb_false_r.
  - rewrite Hs, existsb_map_false by (intros; apply Hs). apply orb_false_r.
Qed.

Lemma CallTool_existsb P name arguments :
  silent P -> existsb P (fst (CallTool peer name arguments)) = P (SessionCallTool name arguments).
Proof.
  intros [_ Hj]. unfold CallTool. destruct (callTool peer name arguments); cbn.
  - apply orb_false_r.
  - rewrite Hj. apply orb_false_r.
Qed.

Lemma GetServerInfo_existsb P :
  silent P ->
  existsb P (fst (GetServerInfo peer))
  = P SessionPing
    || match ping peer with
       | None => P SessionListTools || P SessionListResources
       | Some _ => false
       end.
Proof.
  intros [Hs _]. unfold GetServerInfo. destruct (ping peer); cbn; [reflexivity|].
  rewrite !Hs. cbn. rewrite !existsb_app. cbn.
  destruct (listTools peer), (listResources peer); cbn; rewrite ?Hs;
    destruct (P SessionPing), (P SessionListTools), (P SessionListResources); reflexivity.
Qed.

Lemma Connect_connectable_cases (urlParse : string -> option error) (c : Config) :
  (connectable urlParse c = true
   /\ exists t, Connect urlParse peer c = ([SessionConnect t], Returns (connect peer t)))
  \/ (connectable urlParse c = false
      /\ ((exists e, Connect urlParse peer c = ([], Returns (Some e)))
          \/ (exists v, Connect urlParse peer c = ([], Panics v)
                        /\ Transport c = "sse"%string /\ urlParse (sseURL c) = Some v))).
Proof.
  unfold Connect, connectable, dial, connectStdio, connectSSE, connectStreamableHTTP, sseURL.
  destruct (String.eqb_spec (Transport c) "stdio") as [Ht|_].
  { rewrite Ht. destruct (String.eqb (Command c) EmptyString); [right|left];
      (split; [reflexivity|eauto]). }
  destruct (String.eqb_spec (Transport c) "sse") as [Ht|_].
  { rewrite Ht. destruct (urlParse _) as [v|] eqn:Hu; [right|left]; cbn;
      (split; [reflexivity|eauto 6]). }
  destruct (String.eqb_spec (Transport c) "streamable-http") as [Ht|_];
    [rewrite Ht; left; split; [reflexivity|eauto]|].
  right. split; [reflexivity|eauto].
Qed.

Lemma orFatal_terminal (r : list Event * option error) (f : error -> Fatal) :
  exists last, orFatal r f = fst r ++ [last] /\ isTerminal last = true
               /\ isPanic last = false
               /\ (isClose last = true -> snd r = None).
Proof.
  unfold orFatal. destruct (snd r); eexists; (split; [reflexivity|]); repeat split;
    try reflexivity; discriminate.
Qed.

End ClientMethods.

Lemma silent_isTerminal : silent isTerminal.
Proof. split; reflexivity. Qed.
Lemma silent_isRequest : silent isRequest.
Proof. split; reflexivity. Qed.
Lemma silent_isCallTool : silent isCallTool.
Proof. split; reflexivity. Qed.

(** X10. [Connect] reaches for the network exactly when a transport can
    be built from the configuration: for [streamable-http] always, for
    [sse] when the address parses, for [stdio] when a command is
    configured.  Then its only event is the connection and its result is
    the answer of the other side.  Otherwise there is no event, and
    [Connect] returns an error or, exactly when the transport is [sse] and
    the address does not parse, panics with the error of the parser. *)
Theorem Connect_connectable (urlParse : string -> option error)
    (peer : client.Peer) (c : client.Config) :
  (connectable urlParse c = true ->
   exists t, client.Connect urlParse peer c
             = ([client.SessionConnect t], client.Returns (client.connect peer t)))
  /\ (connectable urlParse c = false ->
      fst (client.Connect urlParse peer c) = []
      /\ snd (client.Connect urlParse peer c) <> client.Returns None)
  /\ (forall v, snd (client.Connect urlParse peer c) = client.Panics v <->
                client.Transport c = "sse"%string /\ urlParse (sseURL c) = Some v).
Proof.
  destruct (Connect_connectable_cases peer urlParse c)
    as [(Hc & t & Heq) | (Hc & [(e & Heq) | (v & Heq & Ht & Hu)])];
    rewrite Hc, Heq; cbn [fst snd]; (split; [|split]); try discriminate; try intros _.
  - exists t. reflexivity.
  - intros v. split; [|intros [Ht Hu]].
    + intros Hp. exfalso. revert Hp Heq Hc.
      unfold client.Connect, client.dial, client.connectSSE, client.connectStdio,
        client.connectStreamableHTTP, connectable, sseURL.
      destruct (String.eqb (client.Transport c) "stdio").
      { destruct (String.eqb (client.Command c) EmptyString); cbn; intros ? [= ? ?];
          subst; discriminate. }
      destruct (String.eqb (client.Transport c) "sse").
      { destruct (urlParse _); [discriminate|]. cbn. intros ? [= ? ?]; subst; discriminate. }
      destruct (String.eqb (client.Transport c) "streamable-http"); [|discriminate].
      cbn. intros ? [= ? ?]; subst; discriminate.
    + exfalso. revert Hc. unfold connectable. rewrite Ht, Hu. cbn.
      destruct (client.Command c); discriminate.
  - split; [reflexivity|discriminate].
  - intros v. split; [discriminate|]. intros [Ht Hu]. exfalso. revert Heq.
    unfold client.Connect, client.dial, client.connectSSE. fold (sseURL c).
    rewrite Ht, Hu. cbn. discriminate.
  - split; [reflexivity|discriminate].
  - intros v'. split.
    + intros [= <-]. auto.
    + intros [_ Hu']. rewrite Hu in Hu'. injection Hu' as <-. reflexivity.
Qed.

(** The default address parses, and the session is asked for; port -3
    does not, and [Connect] panics with nothing sent. *)
Lemma Connect_connectable_witness :
  (exists t, client.Connect parseExample livePeer (fst (client.parseConfig sseInfo ∅))
             = ([client.SessionConnect t], client.Returns None))
  /\ client.Connect parseExample livePeer (fst (client.parseConfig ssePortMinus3 ∅))
     = ([], client.Panics
              ("parse " +:+ quote +:+ "http://localhost:-3/sse" +:+ quote
               +:+ ": invalid port " +:+ quote +:+ ":-3" +:+ quote +:+ " after host")).
Proof.
  split.
  - apply (Connect_connectable parseExample livePeer (fst (client.parseConfig sseInfo ∅))).
    vm_compute. reflexivity.
  - destruct (Connect_connectable parseExample livePeer
                (fst (client.parseConfig ssePortMinus3 ∅))) as (_ & Hno & Hpanic).
    destruct (Hno ltac:(vm_compute; reflexivity)) as [Hfst _].
    rewrite (surjective_pairing (client.Connect _ _ _)), Hfst.
    rewrite (proj2 (Hpanic _) ltac:(split; vm_compute; reflexivity)). reflexivity.
Defined.

(** ** What a run of the client does *)

Section ClientMain.

Import client.

Variable urlParse : string -> option error.
Variable Unmarshal : string -> json.Error + option (gmap string any).
Variables (cl : flag.CommandLine) (env : os.Env) (peer : Peer).

Let config := fst (parseConfig cl env).
Let connected := Connect urlParse peer config.
Let run := main urlParse Unmarshal cl env peer.

(** What [main] does once the session is open. *)
Let act : list Event :=
  if String.eqb (actionOf cl env) "info" then
    orFatal (GetServerInfo peer) FailedToGetServerInfo
  else if String.eqb (actionOf cl env) "list-tools" then
    orFatal (ListTools peer) FailedToListTools
  else if String.eqb (actionOf cl env) "list-resources" then
    orFatal (ListResources peer) FailedToListResources
  else if String.eqb (actionOf cl env) "call-tool" then
    if String.eqb (toolNameOf cl env) EmptyString then [LogFatal ToolNameRequired]
    else
      match Unmarshal (toolArgsOf cl env) with
      | inl err => [LogFatal (FailedToParseToolArguments err)]
      | inr arguments =>
          orFatal (CallTool peer (toolNameOf cl env) arguments) FailedToCallTool
      end
  else [LogFatal (UnknownAction (actionOf cl env))].

Lemma main_connected :
  run =
  match snd connected with
  | Panics value => fst connected ++ [Panic value]
  | Returns (Some err) => fst connected ++ [LogFatal (FailedToConnect err)]
  | Returns None => fst connected ++ act
  end.
Proof.
  unfold run, main, act, connected, config, actionOf, toolNameOf, toolArgsOf.
  destruct (parseConfig cl env) as [c env']. reflexivity.
Qed.

(** The action ends in one terminal event and holds no other. *)
Lemma act_terminal :
  exists before last, act = before ++ [last] /\ isTerminal last = true
                      /\ isPanic last = false
                      /\ existsb isTerminal before = false.
Proof.
  unfold act.
  destruct (String.eqb (actionOf cl env) "info").
  { destruct (orFatal_terminal (GetServerInfo peer) FailedToGetServerInfo)
      as (last & -> & Ht & Hp & _).
    eexists _, last. split; [reflexivity|]. split; [exact Ht|]. split; [exact Hp|].
    rewrite GetServerInfo_existsb by apply silent_isTerminal. destruct (ping peer); reflexivity. }
  destruct (String.eqb (actionOf cl env) "list-tools").
  { destruct (orFatal_terminal (ListTools peer) FailedToListTools) as (last & -> & Ht & Hp & _).
    eexists _, last. split; [reflexivity|]. split; [exact Ht|]. split; [exact Hp|].
    rewrite ListTools_existsb by apply silent_isTerminal. reflexivity. }
  destruct (String.eqb (actionOf cl env) "list-resources").
  { destruct (orFatal_terminal (ListResources peer) FailedToListResources)
      as (last & -> & Ht & Hp & _).
    eexists _, last. split; [reflexivity|]. split; [exact Ht|]. split; [exact Hp|].
    rewrite ListResources_existsb by apply silent_isTerminal. reflexivity. }
  destruct (String.eqb (actionOf cl env) "call-tool");
    [|exists [], (LogFatal (UnknownAction (actionOf cl env))); repeat split].
  destruct (String.eqb (toolNameOf cl env) EmptyString);
    [exists [], (LogFatal ToolNameRequired); repeat split|].
  destruct (Unmarshal (toolArgsOf cl env)) as [err|arguments];
    [exists [], (LogFatal (FailedToParseToolArguments err)); repeat split|].
  destruct (orFatal_terminal (CallTool peer (toolNameOf cl env) arguments) FailedToCallTool)
    as (last & -> & Ht & Hp & _).
  eexists _, last. split; [reflexivity|]. split; [exact Ht|]. split; [exact Hp|].
  rewrite CallTool_existsb by apply silent_isTerminal. reflexivity.
Qed.

(** X11. Every run of the client ends in exactly one of three ways, and
    that is the last thing it does: a fatal error, the panic of the SSE
    transport on an address that does not parse, or the closing of the
    session.  After a fatal error or a panic the session is not closed;
    the session is closed only when the connection was made; and a panic
    is the only event of its run. *)
Theorem main_ends_once :
  exists before last,
    run = before ++ [last]
    /\ isTerminal last = true
    /\ existsb isTerminal before = false
    /\ (isClose last = true -> snd connected = Returns None)
    /\ (isPanic last = true ->
        before = [] /\ Transport config = "sse"%string
        /\ urlParse (sseURL config) = Some (match last with Panic v => v | _ => EmptyString end)).
Proof.
  rewrite main_connected.
  destruct (Connect_connectable_cases peer urlParse config)
    as [(_ & t & Hc) | (_ & [(e & Hc) | (v & Hc & Ht & Hu)])];
    fold connected in Hc; rewrite Hc; cbn [fst snd].
  - destruct (connect peer t) as [err|].
    + exists [SessionConnect t], (LogFatal (FailedToConnect err)). repeat split; discriminate.
    + destruct act_terminal as (before & last & -> & Ht & Hp & Hb).
      exists (SessionConnect t :: before), last.
      split; [reflexivity|]. split; [exact Ht|]. split; [exact Hb|].
      split; [reflexivity|]. rewrite Hp. discriminate.
  - exists [], (LogFatal (FailedToConnect e)). repeat split; discriminate.
  - exists [], (Panic v). repeat split; try assumption. discriminate.
Qed.

(** What the action asks of the session, by kind of request. *)
Lemma act_requests (P : Event -> bool) :
  silent P -> P SessionClose = false -> (forall f, P (LogFatal f) = false) ->
  existsb P act = true ->
  (actionOf cl env = "info"%string
   /\ (P SessionPing = true \/ P SessionListTools = true \/ P SessionListResources = true))
  \/ (actionOf cl env = "list-tools"%string /\ P SessionListTools = true)
  \/ (actionOf cl env = "list-resources"%string /\ P SessionListResources = true)
  \/ (actionOf cl env = "call-tool"%string
      /\ toolNameOf cl env <> EmptyString
      /\ exists arguments, Unmarshal (toolArgsOf cl env) = inr arguments
                           /\ P (SessionCallTool (toolNameOf cl env) arguments) = true).
Proof.
  intros Hs Hclose Hfatal. unfold act.
  assert (Hor : forall r f, existsb P (orFatal r f) = existsb P (fst r)).
  { intros r f. unfold orFatal. destruct (snd r); rewrite existsb_app; cbn;
      rewrite ?Hfatal, ?Hclose; apply orb_false_r. }
  destruct (String.eqb_spec (actionOf cl env) "info") as [Ha|_].
  { rewrite Hor, GetServerInfo_existsb by exact Hs. intros H. left. split; [exact Ha|].
    destruct (P SessionPing); [auto|]. destruct (ping peer); [discriminate|].
    cbn in H. apply orb_true_iff in H. tauto. }
  destruct (String.eqb_spec (actionOf cl env) "list-tools") as [Ha|_].
  { rewrite Hor, ListTools_existsb by exact Hs. auto. }
  destruct (String.eqb_spec (actionOf cl env) "list-resources") as [Ha|_].
  { rewrite Hor, ListResources_existsb by exact Hs. auto. }
  destruct (String.eqb_spec (actionOf cl env) "call-tool") as [Ha|_];
    [|cbn; rewrite Hfatal; discriminate].
  destruct (String.eqb_spec (toolNameOf cl env) EmptyString) as [|Hn];
    [cbn; rewrite Hfatal; discriminate|].
  destruct (Unmarshal (toolArgsOf cl env)) as [err|arguments];
    [cbn; rewrite Hfatal; discriminate|].
  rewrite Hor, CallTool_existsb by exact Hs. intros H. right; right; right. eauto.
Qed.

(** X12. No request without a session: if a run sends any request (ping,
    listing, tool call), it began by connecting and the connection was
    made. *)
Theorem requests_need_session :
  existsb isRequest run = true ->
  exists t rest, run = SessionConnect t :: rest /\ connect peer t = None.
Proof.
  rewrite main_connected.
  destruct (Connect_cases urlParse peer config) as [(e & Hc) | [(v & Hc) | (t & Hc)]];
    fold connected in Hc; rewrite Hc; cbn [fst snd].
  - cbn. discriminate.
  - cbn. discriminate.
  - destruct (connect peer t) as [err|] eqn:Hconn; cbn; [discriminate|]. intros _.
    exists t, act. split; [reflexivity|exact Hconn].
Qed.

(** X13. One action per run: a tool call is sent only by [call-tool], a
    ping only by [info], a listing of tools only by [info] and
    [list-tools], a listing of resources only by [info] and
    [list-resources]. *)
Theorem main_one_action :
  (existsb isCallTool run = true -> actionOf cl env = "call-tool"%string)
  /\ (existsb isPing run = true -> actionOf cl env = "info"%string)
  /\ (existsb isListTools run = true ->
      actionOf cl env = "info"%string \/ actionOf cl env = "list-tools"%string)
  /\ (existsb isListResources run = true ->
      actionOf cl env = "info"%string \/ actionOf cl env = "list-resources"%string).
Proof.
  assert (Hact : forall P, (forall t, P (SessionConnect t) = false) ->
            (forall f, P (LogFatal f) = false) -> (forall v, P (Panic v) = false) ->
            existsb P run = true -> existsb P act = true).
  { intros P Hconn Hfatal Hpanic. rewrite main_connected.
    destruct (Connect_cases urlParse peer config) as [(e & Hc) | [(v & Hc) | (t & Hc)]];
      fold connected in Hc; rewrite Hc; cbn [fst snd].
    - cbn. rewrite Hfatal. discriminate.
    - cbn. rewrite Hpanic. discriminate.
    - destruct (connect peer t); cbn; rewrite Hconn, ?Hfatal; [discriminate|auto]. }
  repeat split; intros H; apply Hact in H; try reflexivity;
    (apply act_requests in H; [|split; reflexivity|reflexivity|reflexivity]);
    destruct H as [[Ha H]|[[Ha H]|[[Ha H]|(Ha & _ & a & _ & H)]]];
    cbn in H; try discriminate; try (destruct H as [H|[H|H]]; discriminate); auto.
Qed.

(** X14. A tool call goes out exactly when the connection is made, the
    tool is named and [json.Unmarshal] accepts the argument blob; it
    then carries that name and the arguments as decoded.  This holds of
    whatever the decoder accepts. *)
Theorem call_tool_issued (name : string) (arguments : option (gmap string any)) :
  actionOf cl env = "call-tool"%string ->
  (In (SessionCallTool name arguments) run <->
   snd connected = Returns None /\ name = toolNameOf cl env /\ name <> EmptyString
   /\ Unmarshal (toolArgsOf cl env) = inr arguments).
Proof.
  intros Ha. rewrite main_connected.
  assert (Hact : In (SessionCallTool name arguments) act <->
                 name = toolNameOf cl env /\ name <> EmptyString
                 /\ Unmarshal (toolArgsOf cl env) = inr arguments).
  { unfold act. rewrite Ha. cbn [String.eqb Ascii.eqb Bool.eqb].
    destruct (String.eqb_spec (toolNameOf cl env) EmptyString) as [Hn|Hn].
    { split; [intros [H|[]]; discriminate|]. intros (-> & Hne & _). contradiction. }
    destruct (Unmarshal (toolArgsOf cl env)) as [err|a].
    { split; [intros [H|[]]; discriminate|]. intros (_ & _ & H). discriminate. }
    unfold orFatal, CallTool.
    destruct (callTool peer (toolNameOf cl env) a); cbn; split.
    - intros [H|[H|[]]]; [|discriminate]. injection H as <- <-. auto.
    - intros (-> & _ & H). injection H as ->. auto.
    - intros [H|[H|[H|[]]]]; try discriminate. injection H as <- <-. auto.
    - intros (-> & _ & H). injection H as ->. auto. }
  destruct (Connect_cases urlParse peer config) as [(e & Hc) | [(v & Hc) | (t & Hc)]];
    fold connected in Hc; rewrite Hc; cbn [fst snd].
  - cbn. split; [intros [H|[]]; discriminate|]. intros [H _]. discriminate.
  - cbn. split; [intros [H|[]]; discriminate|]. intros [H _]. discriminate.
  - destruct (connect peer t) as [err|]; cbn.
    + split; [intros [H|[H|[]]]; discriminate|]. intros [H _]. discriminate.
    + rewrite <- Hact. split; [intros [H|H]; [discriminate|auto]|]. intros [_ H]. auto.
Qed.

End ClientMain.

Lemma main_ends_once_example :
  client.main parseExample json.Unmarshal sseInfo ∅ livePeer
  = [client.SessionConnect (client.SSEClientTransport "http://localhost:8080/sse");
     client.SessionPing;
     client.Stdout ("Server Info:" +:+ client.nl);
     client.Stdout ("  Session ID: session-1" +:+ client.nl);
     client.Stdout ("  Connection: Active" +:+ client.nl);
     client.SessionListTools;
     client.Stdout ("  Tools Available: 1" +:+ client.nl);
     client.SessionListResources;
     client.Stdout ("  Resources Available: 0" +:+ client.nl);
     client.SessionClose]
  /\ client.main parseExample json.Unmarshal ssePortMinus3 ∅ livePeer
     = [client.Panic
          ("parse " +:+ quote +:+ "http://localhost:-3/sse" +:+ quote
           +:+ ": invalid port " +:+ quote +:+ ":-3" +:+ quote +:+ " after host")].
Proof. split; vm_compute; reflexivity. Qed.

(** A run with port -3 ends in the panic, which is all it does. *)
Lemma main_ends_once_witness :
  exists v, client.main parseExample json.Unmarshal ssePortMinus3 ∅ livePeer = [client.Panic v]
            /\ parseExample "http://localhost:-3/sse" = Some v.
Proof.
  destruct (main_ends_once parseExample json.Unmarshal ssePortMinus3 ∅ livePeer)
    as (before & last & Hm & Ht & Hb & Hc & Hp).
  assert (Hmain : client.main parseExample json.Unmarshal ssePortMinus3 ∅ livePeer
                  = [] ++ [client.Panic
                             ("parse " +:+ quote +:+ "http://localhost:-3/sse" +:+ quote
                              +:+ ": invalid port " +:+ quote +:+ ":-3" +:+ quote
                              +:+ " after host")])
    by (vm_compute; reflexivity).
  rewrite Hmain in Hm. apply app_inj_tail in Hm as [Hbefore Hlast]. subst before last.
  destruct (Hp eq_refl) as (_ & _ & Hu).
  eexists. split; [exact Hmain|]. exact Hu.
Defined.

Lemma requests_need_session_witness :
  exists t rest,
    client.main parseExample json.Unmarshal sseInfo ∅ livePeer = client.SessionConnect t :: rest
    /\ client.connect livePeer t = None.
Proof. apply requests_need_session. vm_compute. reflexivity. Defined.

Lemma main_one_action_witness : actionOf sseCallTool ∅ = "call-tool"%string.
Proof.
  apply (proj1 (main_one_action parseExample json.Unmarshal sseCallTool ∅ livePeer)).
  vm_compute. reflexivity.
Defined.

(** The empty object goes out as the arguments of the call; a blob with
    a number that no [float64] holds sends no call at all. *)
Lemma call_tool_issued_witness :
  In (client.SessionCallTool "echo" (Some ∅))
     (client.main parseExample json.Unmarshal sseCallTool ∅ livePeer)
  /\ forall arguments,
       ~ In (client.SessionCallTool "echo" arguments)
            (client.main parseExample json.Unmarshal overflowCall ∅ livePeer).
Proof.
  split.
  - apply (call_tool_issued parseExample json.Unmarshal sseCallTool ∅ livePeer "echo" (Some ∅)).
    + vm_compute. reflexivity.
    + repeat split; try (vm_compute; reflexivity). discriminate.
  - intros arguments Hin.
    apply (call_tool_issued parseExample json.Unmarshal overflowCall ∅ livePeer
             "echo" arguments) in Hin; [|vm_compute; reflexivity].
    destruct Hin as (_ & _ & _ & Hdec).
    assert (Hbad : json.Unmarshal (toolArgsOf overflowCall ∅)
                   = inl (json.UnmarshalTypeError "number 1e400"))
      by (vm_compute; reflexivity).
    rewrite Hbad in Hdec. discriminate.
Defined.

(** ** The methods and the configuration of the client *)

(** X15. [GetServerInfo] fails exactly when the ping fails, and then
    nothing is printed and nothing else is asked.  After a ping that
    succeeds both listings are asked for, whether or not the first fails;
    a listing that fails is left out of the output and is not an error. *)
Theorem GetServerInfo_ping (peer : client.Peer) :
  (forall e, client.ping peer = Some e ->
     client.GetServerInfo peer
     = ([client.SessionPing], Some ("failed to ping server: " +:+ e)))
  /\ (client.ping peer = None ->
      snd (client.GetServerInfo peer) = None
      /\ existsb isListTools (fst (client.GetServerInfo peer)) = true
      /\ existsb isListResources (fst (client.GetServerInfo peer)) = true
      /\ length (List.filter isStdout (fst (client.GetServerInfo peer)))
         = 3 + (match client.listTools peer with inl _ => 0 | inr _ => 1 end)
             + (match client.listResources peer with inl _ => 0 | inr _ => 1 end)).
Proof.
  unfold client.GetServerInfo. split.
  - intros e ->. reflexivity.
  - intros ->. destruct (client.listTools peer), (client.listResources peer);
      cbn; repeat split; reflexivity.
Qed.

Lemma GetServerInfo_ping_witness :
  snd (client.GetServerInfo
         {| client.connect := fun _ => None; client.sessionID := "session-1";
            client.ping := None;
            client.listTools := inl "method not found"%string;
            client.listResources := inl "method not found"%string;
            client.callTool := fun _ _ => inl "unknown tool"%string |})
  = None.
Proof.
  refine (proj1 (proj2 (GetServerInfo_ping _) _)). reflexivity.
Defined.

Lemma Getenv_Setenv (env : os.Env) (key value : string) :
  String.eqb key EmptyString = false ->
  os.hasByte "="%char key = false -> os.hasByte "000"%char key = false ->
  os.hasByte "000"%char value = false ->
  os.Getenv (os.Setenv env key value) key = value.
Proof.
  intros H1 H2 H3 H4. unfold os.Setenv, os.Getenv. rewrite H1, H2, H3, H4. cbn [orb].
  unfold os.Env in *. rewrite lookup_insert_eq. reflexivity.
Qed.

Lemma Getenv_Setenv_ne (env : os.Env) (key key' value : string) :
  key <> key' -> os.Getenv (os.Setenv env key value) key' = os.Getenv env key'.
Proof.
  intros Hne. unfold os.Setenv, os.Getenv.
  destruct (_ || _); [reflexivity|]. unfold os.Env in *.
  rewrite lookup_insert_ne by exact Hne. reflexivity.
Qed.

(** X16. The action, the tool name and the argument blob go from the
    flags to [main] through the environment and come out as they went in:
    what [main] reads back is the value of the flag, or its default, also
    when the environment already held a value under the same name;
    values of flags have no NUL byte. *)
Theorem action_round_trip (cl : flag.CommandLine) (env : os.Env) :
  os.hasByte "000"%char (actionFlag cl) = false ->
  os.hasByte "000"%char (toolFlag cl) = false ->
  os.hasByte "000"%char (argsFlag cl) = false ->
  actionOf cl env = actionFlag cl
  /\ toolNameOf cl env = toolFlag cl
  /\ toolArgsOf cl env = argsFlag cl.
Proof.
  intros Ha Ht Hr. unfold actionOf, toolNameOf, toolArgsOf, client.parseConfig. cbn [snd].
  fold (actionFlag cl) (toolFlag cl) (argsFlag cl).
  repeat split.
  - rewrite !Getenv_Setenv_ne by discriminate. apply Getenv_Setenv; auto.
  - rewrite Getenv_Setenv_ne by discriminate. apply Getenv_Setenv; auto.
  - apply Getenv_Setenv; auto.
Qed.

Lemma action_round_trip_witness :
  actionOf sseCallTool {[ "CLIENT_ACTION"%string := "list-tools"%string ]}
  = "call-tool"%string.
Proof.
  refine (proj1 (action_round_trip sseCallTool
                   {[ "CLIENT_ACTION"%string := "list-tools"%string ]} _ _ _));
    vm_compute; reflexivity.
Defined.

(** X17. The command of the stdio transport and its arguments.  The
    command is the one of the environment if there is one, else the one
    of the flag.  The arguments after the flags go to it only if the flag
    named a command: a command that comes from the environment alone is
    started without arguments. *)
Theorem stdio_command (urlParse : string -> option error)
    (cl : flag.CommandLine) (env : os.Env) (peer : client.Peer) :
  let c := fst (client.parseConfig cl env) in
  let flagCommand := flag.StringVar cl "command" EmptyString in
  client.Transport c = "stdio"%string -> client.Command c <> EmptyString ->
  client.Command c = default flagCommand (env !! "COMMAND"%string)
  /\ client.Args c = (if String.eqb flagCommand EmptyString then [] else flag.positional cl)
  /\ client.Connect urlParse peer c
     = ([client.SessionConnect (client.CommandTransport (client.Command c) (client.Args c))],
        client.Returns
          (client.connect peer (client.CommandTransport (client.Command c) (client.Args c)))).
Proof.
  intros c flagCommand Ht Hc. split; [reflexivity|]. split.
  - subst c flagCommand. unfold client.parseConfig. cbn [fst client.Args].
    destruct (String.eqb _ EmptyString); reflexivity.
  - unfold client.Connect, client.dial, client.connectStdio. rewrite Ht.
    apply String.eqb_neq in Hc. rewrite Hc. reflexivity.
Qed.

Lemma stdio_command_witness :
  client.Connect parseExample livePeer
    (fst (client.parseConfig trailingArgs {[ "COMMAND"%string := "./server"%string ]}))
  = ([client.SessionConnect (client.CommandTransport "./server" [])], client.Returns None).
Proof.
  refine (proj2 (proj2 (stdio_command parseExample trailingArgs
                          {[ "COMMAND"%string := "./server"%string ]} livePeer _ _))).
  - vm_compute. reflexivity.
  - vm_compute. discriminate.
Defined.

(** X18. Started with neither a transport nor a command, by flag or by
    environment, the client stops with a fatal error before it touches the
    network, whatever action it was given: the transport is [stdio] by
    default and needs a command. *)
Theorem bare_run_fails (urlParse : string -> option error)
    (Unmarshal : string -> json.Error + option (gmap string any))
    (cl : flag.CommandLine) (env : os.Env) (peer : client.Peer) :
  bare cl env ->
  client.main urlParse Unmarshal cl env peer
  = [client.LogFatal
       (client.FailedToConnect
          "failed to create transport: command is required for stdio transport")].
Proof.
  intros (Ht & Hc & Het & Hec).
  unfold client.main, client.parseConfig, flag.StringVar, os.LookupEnv.
  rewrite Ht, Hc, Het, Hec. reflexivity.
Qed.

Lemma bare_run_fails_witness :
  client.main parseExample json.Unmarshal noFlags {[ "PORT"%string := "9000"%string ]} livePeer
  = [client.LogFatal
       (client.FailedToConnect
          "failed to create transport: command is required for stdio transport")].
Proof.
  apply bare_run_fails. repeat split; vm_compute; reflexivity.
Defined.
